(** * The Microsoft calendar provider of Analog

    A shallow embedding of
    [packages/api/src/providers/microsoft-calendar.ts]: the class
    [MicrosoftCalendarProvider], its nine public operations and the private
    error wrapper [withErrorHandler].

    The operations are asynchronous methods that talk to Microsoft Graph
    through a request builder, read fields of [this], write to the console
    and throw.  They are embedded in a state-and-exception monad over a
    [World] that holds the receiver object, the record of the network
    exchange and the console.  An [await] is a sequencing point: the
    request is issued, the rest of the method runs once it has settled.
    One operation is followed at a time; what the service answers may
    depend on everything exchanged before. *)

From Stdlib Require Import ZArith Ascii String List Lia.
From stdpp Require Import base option list strings.

Local Open Scope string_scope.
Local Open Scope list_scope.
Local Open Scope Z_scope.

#[local] Set Warnings "-register-all".

(** The double quote, for template literals that contain one. *)
Definition dquote : string := String (ascii_of_nat 34) EmptyString.

(** ** JavaScript values

    Whatever crosses the network client is a plain JavaScript value; the
    TypeScript casts of the source ([as MicrosoftCalendar[]], the annotation
    [: MicrosoftEvent]) are erased at run time, so the provider's native
    shapes are values and nothing more. *)

Inductive Value : Type :=
| VUndefined
| VNull
| VBool (b : bool)
| VNumber (n : Z)
| VString (s : string)
| VArray (items : list Value)
| VObject (members : list (string * Value)).

(** The value of a key in an object; of two members with the same key,
    the later one counts. *)
Fixpoint member (key : string) (members : list (string * Value)) : option Value :=
  match members with
  | [] => None
  | (k, v) :: rest =>
      match member key rest with
      | Some later => Some later
      | None => if bool_decide (k = key) then Some v else None
      end
  end.

(** Values thrown by the code under study: whatever the Graph client rejects
    with, and the [TypeError] JavaScript raises on a property access or a
    method call that is not possible. *)
Inductive Thrown : Type :=
| GraphError (statusCode : Z) (code : string) (message : string)
| TypeError.

Inductive Result (E T : Type) : Type :=
| Ok (value : T)
| Err (error : E).
Arguments Ok {E T} value.
Arguments Err {E T} error.

(** [o.key]: throws on [undefined] and [null], is [undefined] when the
    property is missing. *)
Definition property (key : string) (o : Value) : Result Thrown Value :=
  match o with
  | VUndefined | VNull => Err TypeError
  | VObject members => Ok (default VUndefined (member key members))
  | _ => Ok VUndefined
  end.

(** The receiver of [.map(...)]: only an array has the method. *)
Definition asArray (v : Value) : Result Thrown (list Value) :=
  match v with
  | VArray items => Ok items
  | _ => Err TypeError
  end.

Abbreviation MicrosoftCalendar := Value (only parsing).
Abbreviation MicrosoftEvent := Value (only parsing).

(** The native color of a Graph calendar: its [hexColor] string, if any. *)
Definition hexColor (calendar : MicrosoftCalendar) : option string :=
  match calendar with
  | VObject members =>
      match member "hexColor" members with
      | Some (VString s) => Some s
      | _ => None
      end
  | _ => None
  end.

(** ** Temporal

    The part of [temporal-polyfill] the adapter calls.  A zoned date-time
    is an exact time with a time zone attached. *)
Module Temporal.

Record Instant : Type := mkInstant { epochNanoseconds : Z }.

Record ZonedDateTime : Type :=
  mkZonedDateTime { zdtEpochNanoseconds : Z; timeZoneId : string }.

Definition withTimeZone (timeZone : string) (z : ZonedDateTime) : ZonedDateTime :=
  {| zdtEpochNanoseconds := zdtEpochNanoseconds z; timeZoneId := timeZone |}.

Definition toInstant (z : ZonedDateTime) : Instant :=
  {| epochNanoseconds := zdtEpochNanoseconds z |}.

End Temporal.

(** ** The canonical model ([./interfaces], [../schemas]) *)

(** Modelled from the spec: the [providerId] enumeration of [./interfaces],
    whose declaration is not among the files embedded here. *)
Inductive ProviderId : Type := google | microsoft.

(** Modelled from the spec: the type [Calendar] of [./interfaces], with the
    fields the data model of the specification lists. *)
Record Calendar : Type := mkCalendar {
  calId : string;
  calAccountId : string;
  calProviderId : ProviderId;
  calName : string;
  color : string;
  isDefault : bool;
  isReadOnly : bool;
  permissions : Value
}.

(** [{ ...calendar, color: c }] *)
Definition withColor (c : string) (calendar : Calendar) : Calendar :=
  {| calId := calId calendar;
     calAccountId := calAccountId calendar;
     calProviderId := calProviderId calendar;
     calName := calName calendar;
     color := c;
     isDefault := isDefault calendar;
     isReadOnly := isReadOnly calendar;
     permissions := permissions calendar |}.

(** Modelled from the spec: the type [CalendarEvent] of [./interfaces],
    with the identifying fields the data model of the specification lists;
    what else the provider sent (times, attendees, recurrence) stays in the
    pass-through field. *)
Record CalendarEvent : Type := mkCalendarEvent {
  evId : string;
  evCalendarId : string;
  evAccountId : string;
  evProviderId : ProviderId;
  evTitle : string;
  evDescription : option string;
  evProviderFields : Value
}.

(** Modelled from the spec: the response status of [./interfaces], one of
    accepted, declined, tentative and unknown. *)
Inductive ResponseStatus : Type := accepted | declined | tentative | unknown.

#[global] Instance ResponseStatus_eq_dec : EqDecision ResponseStatus.
Proof. solve_decision. Defined.

(** Modelled from the spec: the type [ResponseToEventInput] of
    [./interfaces]; the adapter reads [status], [comment] and [sendUpdate]
    from it, and the scenario of the specification leaves [comment] out. *)
Record ResponseToEventInput : Type := mkResponse {
  status : ResponseStatus;
  comment : option string;
  sendUpdate : bool
}.

(** Modelled from the spec: [CreateCalendarInput] and [UpdateCalendarInput]
    of [../schemas/calendars], validated payload shapes; the adapter passes
    them to the client as they are. *)
Abbreviation CreateCalendarInput := Value (only parsing).
Abbreviation UpdateCalendarInput := Value (only parsing).

(** Modelled from the spec: [CreateEventInput] of [../schemas/events], a
    validated payload shape; the adapter hands it to [toMicrosoftEvent]. *)
Record CreateEventInput : Type := mkCreateEventInput {
  createFields : Value
}.

(** Modelled from the spec: [UpdateEventInput] of [../schemas/events]; the
    adapter hands it to [toMicrosoftEvent] and looks at its optional
    [response]. *)
Record UpdateEventInput : Type := mkUpdateEventInput {
  updateFields : Value;
  response : option ResponseToEventInput
}.

(** ** ProviderError ([./utils]) *)

Definition Context : Type := list (string * Value).

(** Modelled from the spec: the class [ProviderError] of [./utils], which
    wraps the underlying error, the operation name and an optional context
    map, in the order of the arguments of its constructor. *)
Record ProviderError : Type := mkProviderError {
  cause : Thrown;
  operation : string;
  context : option Context
}.

(** ** The Graph client ([@microsoft/microsoft-graph-client])

    [Client.initWithMiddleware] builds a client around an authentication
    provider; [client.api(path)] starts a request, the builder methods
    refine it and a verb turns it into a call, sent when it is awaited. *)
Module Graph.

Record Client : Type := mkClient { getAccessToken : string }.

Inductive Verb : Type := GET | POST | PATCH | DELETE.

Record Request : Type := mkRequest {
  client : Client;
  path : string;
  headers : list (string * string);
  filterQuery : option string;
  orderbyQuery : list string;
  topQuery : option Z
}.

Definition api (c : Client) (p : string) : Request :=
  {| client := c; path := p; headers := []; filterQuery := None;
     orderbyQuery := []; topQuery := None |}.

Definition header (name value : string) (r : Request) : Request :=
  {| client := client r; path := path r;
     headers := headers r ++ [(name, value)];
     filterQuery := filterQuery r; orderbyQuery := orderbyQuery r;
     topQuery := topQuery r |}.

Definition filter (expr : string) (r : Request) : Request :=
  {| client := client r; path := path r; headers := headers r;
     filterQuery := Some expr; orderbyQuery := orderbyQuery r;
     topQuery := topQuery r |}.

Definition orderby (prop : string) (r : Request) : Request :=
  {| client := client r; path := path r; headers := headers r;
     filterQuery := filterQuery r; orderbyQuery := orderbyQuery r ++ [prop];
     topQuery := topQuery r |}.

Definition top (n : Z) (r : Request) : Request :=
  {| client := client r; path := path r; headers := headers r;
     filterQuery := filterQuery r; orderbyQuery := orderbyQuery r;
     topQuery := Some n |}.

(** One network call: a verb, the request it is applied to and the body. *)
Record Call : Type := mkCall {
  verb : Verb;
  request : Request;
  body : option Value
}.

Definition get (r : Request) : Call :=
  {| verb := GET; request := r; body := None |}.
Definition post (content : Value) (r : Request) : Call :=
  {| verb := POST; request := r; body := Some content |}.
Definition patch (content : Value) (r : Request) : Call :=
  {| verb := PATCH; request := r; body := Some content |}.
Definition delete (r : Request) : Call :=
  {| verb := DELETE; request := r; body := None |}.

(** The exchange with the service, oldest first: a call is issued, and
    later settles with a response or a rejection. *)
Inductive Event : Type :=
| Issued (c : Call)
| Settled (c : Call) (outcome : Result Thrown Value).

(** The calls issued in an exchange, oldest first. *)
Definition issued (events : list Event) : list Call :=
  omap (fun e => match e with Issued c => Some c | Settled _ _ => None end) events.

End Graph.

(** ** The adapter object and the world it runs in *)

Record MicrosoftCalendarProviderOptions : Type := mkOptions {
  optAccessToken : string;
  optAccountId : string
}.

Record MicrosoftCalendarProvider : Type := mkProvider {
  providerId : ProviderId;
  accountId : string;
  graphClient : Graph.Client
}.

Definition new_MicrosoftCalendarProvider
    (options : MicrosoftCalendarProviderOptions) : MicrosoftCalendarProvider :=
  {| providerId := microsoft;
     accountId := optAccountId options;
     graphClient := {| Graph.getAccessToken := optAccessToken options |} |}.

Record World : Type := mkWorld {
  this : MicrosoftCalendarProvider;
  network : list Graph.Event;
  console : list (string * Thrown)
}.

(** ** The monad of an asynchronous method body *)

Definition M (E T : Type) : Type := World -> Result E T * World.

Definition ret {E T} (v : T) : M E T := fun w => (Ok v, w).

Definition bind {E A B} (m : M E A) (k : A -> M E B) : M E B :=
  fun w =>
    match m w with
    | (Ok v, w') => k v w'
    | (Err e, w') => (Err e, w')
    end.

Notation "x <- m ;; k" := (bind m (fun x => k))
  (at level 100, m at next level, right associativity).
Notation "m ;;; k" := (bind m (fun _ => k))
  (at level 100, right associativity).

Definition lift {T} (r : Result Thrown T) : M Thrown T := fun w => (r, w).

Definition getThis {E} : M E MicrosoftCalendarProvider :=
  fun w => (Ok (this w), w).

(** [console.error(message, error)] *)
Definition console_error (message : string) (error : Thrown) (w : World) : World :=
  {| this := this w; network := network w;
     console := console w ++ [(message, error)] |}.

Notation "r |>> f" := (f r) (at level 45, left associativity, only parsing).

(** ** What the adapter imports

    The helper modules the adapter calls ([./colors],
    [./microsoft-calendar/utils], [../constants/calendar]) and the
    formatting of an exact time by [temporal-polyfill] are not among the
    files embedded here.  The adapter is taken over any implementation of
    them: total functions of the types their call sites give them. *)
Class Imports : Type := {
  assignColor : nat -> string;
  parseMicrosoftCalendar : MicrosoftCalendar -> string -> Calendar;
  parseMicrosoftEvent : MicrosoftEvent -> string -> Calendar -> CalendarEvent;
  toMicrosoftEvent : CreateEventInput + UpdateEventInput -> MicrosoftEvent;
  calendarPath : string -> string;
  eventResponseStatusPath : ResponseStatus -> string;
  MAX_EVENTS_PER_CALENDAR : Z;
  instantToString : Temporal.Instant -> string
}.

(** The service as the client sees it: what a call settles with, given the
    exchange that came before. *)
Definition Service : Type := list Graph.Event -> Graph.Call -> Result Thrown Value.

Section MicrosoftCalendarProvider.

Context `{imports : Imports} (service : Service).

(** [await call]: the call is issued, then settles. *)
Definition await (call : Graph.Call) : M Thrown Value :=
  fun w =>
    let outcome := service (network w) call in
    (outcome,
     {| this := this w;
        network := network w ++ [Graph.Issued call; Graph.Settled call outcome];
        console := console w |}).

(** [this.graphClient.api(path)] *)
Definition graphClientApi (path : string) : M Thrown Graph.Request :=
  self <- getThis ;; ret (Graph.api (graphClient self) path).

(** [this.accountId] *)
Definition thisAccountId : M Thrown string :=
  self <- getThis ;; ret (accountId self).

Definition withErrorHandler {T} (operation : string) (fn : M Thrown T)
    (context : option Context) : M ProviderError T :=
  fun w =>
    match fn w with
    | (Ok v, w') => (Ok v, w')
    | (Err error, w') =>
        (Err {| cause := error; operation := operation; context := context |},
         console_error ("Failed to " +:+ operation +:+ ":") error w')
    end.

Definition calendars : M ProviderError (list Calendar) :=
  withErrorHandler "calendars" (
    request <- graphClientApi
      "/me/calendars?$select=id,name,isDefaultCalendar,canEdit,hexColor,isRemovable,owner,calendarPermissions" ;;
    response <- await (request |>> Graph.get) ;;
    value <- lift (property "value" response) ;;
    items <- lift (asArray value) ;;
    accountId <- thisAccountId ;;
    ret (imap (fun idx calendar =>
                 withColor (assignColor idx)
                           (parseMicrosoftCalendar calendar accountId))
              items)
  ) None.

Definition createCalendar (calendarData : CreateCalendarInput)
    : M ProviderError Calendar :=
  withErrorHandler "createCalendar" (
    request <- graphClientApi "/me/calendars" ;;
    createdCalendar <- await (request |>> Graph.post calendarData) ;;
    accountId <- thisAccountId ;;
    ret (parseMicrosoftCalendar createdCalendar accountId)
  ) None.

Definition updateCalendar (calendarId : string) (calendar : UpdateCalendarInput)
    : M ProviderError Calendar :=
  withErrorHandler "updateCalendar" (
    request <- graphClientApi (calendarPath calendarId) ;;
    updatedCalendar <- await (request |>> Graph.patch calendar) ;;
    accountId <- thisAccountId ;;
    ret (parseMicrosoftCalendar updatedCalendar accountId)
  ) None.

Definition deleteCalendar (calendarId : string) : M ProviderError unit :=
  withErrorHandler "deleteCalendar" (
    request <- graphClientApi (calendarPath calendarId) ;;
    await (request |>> Graph.delete) ;;;
    ret tt
  ) None.

Definition events (calendar : Calendar)
    (timeMin timeMax : Temporal.ZonedDateTime) (timeZone : string)
    : M ProviderError (list CalendarEvent) :=
  withErrorHandler "events" (
    let startTime :=
      instantToString (Temporal.toInstant (Temporal.withTimeZone "UTC" timeMin)) in
    let endTime :=
      instantToString (Temporal.toInstant (Temporal.withTimeZone "UTC" timeMax)) in
    request <- graphClientApi (calendarPath (calId calendar) +:+ "/events") ;;
    response <- await (request
      |>> Graph.header "Prefer" ("outlook.timezone=" +:+ dquote +:+ timeZone +:+ dquote)
      |>> Graph.filter ("start/dateTime ge '" +:+ startTime
                        +:+ "' and end/dateTime le '" +:+ endTime +:+ "'")
      |>> Graph.orderby "start/dateTime"
      |>> Graph.top MAX_EVENTS_PER_CALENDAR
      |>> Graph.get) ;;
    value <- lift (property "value" response) ;;
    items <- lift (asArray value) ;;
    accountId <- thisAccountId ;;
    ret (map (fun event => parseMicrosoftEvent event accountId calendar) items)
  ) None.

Definition createEvent (calendar : Calendar) (event : CreateEventInput)
    : M ProviderError CalendarEvent :=
  withErrorHandler "createEvent" (
    request <- graphClientApi (calendarPath (calId calendar) +:+ "/events") ;;
    createdEvent <- await (request |>> Graph.post (toMicrosoftEvent (inl event))) ;;
    accountId <- thisAccountId ;;
    ret (parseMicrosoftEvent createdEvent accountId calendar)
  ) None.

(** [{ comment: response.comment, sendResponse: response.sendUpdate }] *)
Definition rsvpBody (response : ResponseToEventInput) : Value :=
  VObject [("comment", from_option VString VUndefined (comment response));
           ("sendResponse", VBool (sendUpdate response))].

(** [`/me/events/${eventId}/${eventResponseStatusPath(status)}`] *)
Definition rsvpPath (eventId : string) (status : ResponseStatus) : string :=
  "/me/events/" +:+ eventId +:+ "/" +:+ eventResponseStatusPath status.

Definition updateEvent (calendar : Calendar) (eventId : string)
    (event : UpdateEventInput) : M ProviderError CalendarEvent :=
  withErrorHandler "updateEvent" (
    request <- graphClientApi
      (calendarPath (calId calendar) +:+ "/events/" +:+ eventId) ;;
    updatedEvent <- await (request |>> Graph.patch (toMicrosoftEvent (inr event))) ;;
    match response event with
    | Some r =>
        if bool_decide (status r <> unknown) then
          request <- graphClientApi (rsvpPath eventId (status r)) ;;
          await (request |>> Graph.post (rsvpBody r)) ;;;
          ret tt
        else ret tt
    | None => ret tt
    end ;;;
    accountId <- thisAccountId ;;
    ret (parseMicrosoftEvent updatedEvent accountId calendar)
  ) None.

Definition deleteEvent (calendarId eventId : string) : M ProviderError unit :=
  withErrorHandler "deleteEvent" (
    request <- graphClientApi (calendarPath calendarId +:+ "/events/" +:+ eventId) ;;
    await (request |>> Graph.delete) ;;;
    ret tt
  ) None ;;;
  ret tt.

Definition responseToEvent (calendarId eventId : string)
    (response : ResponseToEventInput) : M ProviderError unit :=
  withErrorHandler "responseToEvent" (
    if bool_decide (status response = unknown) then ret tt
    else
      request <- graphClientApi (rsvpPath eventId (status response)) ;;
      await (request |>> Graph.post (rsvpBody response)) ;;;
      ret tt
  ) None ;;;
  ret tt.

(** *** The public interface

    The operations of [CalendarProvider] as one type of requests, so that
    a statement can range over every public operation. *)

Inductive Operation : Type :=
| Calendars
| CreateCalendar (calendarData : CreateCalendarInput)
| UpdateCalendar (calendarId : string) (calendar : UpdateCalendarInput)
| DeleteCalendar (calendarId : string)
| Events (calendar : Calendar) (timeMin timeMax : Temporal.ZonedDateTime)
         (timeZone : string)
| CreateEvent (calendar : Calendar) (event : CreateEventInput)
| UpdateEvent (calendar : Calendar) (eventId : string) (event : UpdateEventInput)
| DeleteEvent (calendarId eventId : string)
| ResponseToEvent (calendarId eventId : string) (response : ResponseToEventInput).

Inductive Returned : Type :=
| CalendarList (calendars : list Calendar)
| OneCalendar (calendar : Calendar)
| EventList (events : list CalendarEvent)
| OneEvent (event : CalendarEvent)
| Nothing.

Definition operationName (op : Operation) : string :=
  match op with
  | Calendars => "calendars"
  | CreateCalendar _ => "createCalendar"
  | UpdateCalendar _ _ => "updateCalendar"
  | DeleteCalendar _ => "deleteCalendar"
  | Events _ _ _ _ => "events"
  | CreateEvent _ _ => "createEvent"
  | UpdateEvent _ _ _ => "updateEvent"
  | DeleteEvent _ _ => "deleteEvent"
  | ResponseToEvent _ _ _ => "responseToEvent"
  end.

Definition invoke (op : Operation) : M ProviderError Returned :=
  match op with
  | Calendars => cs <- calendars ;; ret (CalendarList cs)
  | CreateCalendar calendarData =>
      c <- createCalendar calendarData ;; ret (OneCalendar c)
  | UpdateCalendar calendarId calendar =>
      c <- updateCalendar calendarId calendar ;; ret (OneCalendar c)
  | DeleteCalendar calendarId => deleteCalendar calendarId ;;; ret Nothing
  | Events calendar timeMin timeMax timeZone =>
      es <- events calendar timeMin timeMax timeZone ;; ret (EventList es)
  | CreateEvent calendar event =>
      e <- createEvent calendar event ;; ret (OneEvent e)
  | UpdateEvent calendar eventId event =>
      e <- updateEvent calendar eventId event ;; ret (OneEvent e)
  | DeleteEvent calendarId eventId => deleteEvent calendarId eventId ;;; ret Nothing
  | ResponseToEvent calendarId eventId response =>
      responseToEvent calendarId eventId response ;;; ret Nothing
  end.

(** The canonical calendars and events a result carries. *)
Definition returnedCalendars (r : Returned) : list Calendar :=
  match r with
  | CalendarList cs => cs
  | OneCalendar c => [c]
  | _ => []
  end.

Definition returnedEvents (r : Returned) : list CalendarEvent :=
  match r with
  | EventList es => es
  | OneEvent e => [e]
  | _ => []
  end.

End MicrosoftCalendarProvider.

(** ** Vocabulary of the statements *)

(** A method body that keeps to the rules of the adapter: it only appends
    to the exchange, leaves the receiver and the console alone, and stops
    at the first rejected call, throwing what the call was rejected with. *)
Definition disciplined {T} (fn : M Thrown T) : Prop :=
  forall w, exists events,
    network (snd (fn w)) = network w ++ events
    /\ this (snd (fn w)) = this w
    /\ console (snd (fn w)) = console w
    /\ forall call e,
         Graph.Settled call (Err e) ∈ events ->
         (exists before,
            events = before ++ [Graph.Issued call; Graph.Settled call (Err e)])
         /\ fst (fn w) = Err e.

(** What an operation adds to the exchange when a call it makes is
    rejected: the rejection is the last event, and it is what the caller
    gets, wrapped under the given name and without a context. *)
Definition rejections_surface {T} (name : string) (events : list Graph.Event)
    (result : Result ProviderError T) : Prop :=
  forall call e,
    Graph.Settled call (Err e) ∈ events ->
    (exists before,
       events = before ++ [Graph.Issued call; Graph.Settled call (Err e)])
    /\ result = Err {| cause := e; operation := name; context := None |}.

(** What an operation leaves on the console: nothing when it succeeds, one
    line with its name and the error it wraps when it fails. *)
Definition failure_logged_once {T} (name : string) (before after : World)
    (result : Result ProviderError T) : Prop :=
  match result with
  | Ok _ => console after = console before
  | Err error =>
      operation error = name
      /\ console after =
           console before ++ [("Failed to " +:+ name +:+ ":", cause error)]
  end.

(** The error envelope around an operation of the given name. *)
Definition enveloped {T} (name : string) (op : M ProviderError T) : Prop :=
  forall w, exists events,
    network (snd (op w)) = network w ++ events
    /\ this (snd (op w)) = this w
    /\ rejections_surface name events (fst (op w))
    /\ failure_logged_once name w (snd (op w)) (fst (op w)).

(** The two calls of [updateEvent], as the receiver [self] issues them. *)
Definition updateEventPatch `{Imports} (self : MicrosoftCalendarProvider)
    (calendar : Calendar) (eventId : string) (event : UpdateEventInput)
    : Graph.Call :=
  {| Graph.verb := Graph.PATCH;
     Graph.request :=
       Graph.api (graphClient self)
         (calendarPath (calId calendar) +:+ "/events/" +:+ eventId);
     Graph.body := Some (toMicrosoftEvent (inr event)) |}.

Definition rsvpPost `{Imports} (self : MicrosoftCalendarProvider)
    (eventId : string) (response : ResponseToEventInput) : Graph.Call :=
  {| Graph.verb := Graph.POST;
     Graph.request :=
       Graph.api (graphClient self)
         ("/me/events/" +:+ eventId +:+ "/"
            +:+ eventResponseStatusPath (status response));
     Graph.body := Some (rsvpBody response) |}.

(** The call of [calendars] and the call of [events]. *)
Definition calendarsListing (self : MicrosoftCalendarProvider) : Graph.Call :=
  {| Graph.verb := Graph.GET;
     Graph.request :=
       {| Graph.client := graphClient self;
          Graph.path :=
            "/me/calendars?$select=id,name,isDefaultCalendar,canEdit,hexColor,isRemovable,owner,calendarPermissions";
          Graph.headers := [];
          Graph.filterQuery := None;
          Graph.orderbyQuery := [];
          Graph.topQuery := None |};
     Graph.body := None |}.

Definition eventsQuery `{Imports} (self : MicrosoftCalendarProvider)
    (calendar : Calendar) (timeMin timeMax : Temporal.Instant)
    (timeZone : string) : Graph.Call :=
  {| Graph.verb := Graph.GET;
     Graph.request :=
       {| Graph.client := graphClient self;
          Graph.path := calendarPath (calId calendar) +:+ "/events";
          Graph.headers :=
            [("Prefer", "outlook.timezone=" +:+ dquote +:+ timeZone +:+ dquote)];
          Graph.filterQuery :=
            Some ("start/dateTime ge '" +:+ instantToString timeMin
                    +:+ "' and end/dateTime le '" +:+ instantToString timeMax
                    +:+ "'");
          Graph.orderbyQuery := ["start/dateTime"];
          Graph.topQuery := Some MAX_EVENTS_PER_CALENDAR |};
     Graph.body := None |}.

(** The calendars a listing response carries, if it has the shape
    [{ value: [...] }]. *)
Definition listedIn (response : Value) : option (list MicrosoftCalendar) :=
  match property "value" response with
  | Ok (VArray items) => Some items
  | _ => None
  end.

(** The color the specification describes for a listed calendar: the
    native [hexColor] when it is there and not empty, the fallback
    otherwise. *)
Definition nativeColorOr (fallback : string) (native : MicrosoftCalendar)
    : string :=
  match hexColor native with
  | Some (String a s) => String a s
  | _ => fallback
  end.

(** The reading of the specification: in what [calendars] returns, the
    calendar at an index has its native color, and the palette color of
    the index only when there is no native color. *)
Definition native_color_preferred `{Imports} (service : Service) (w : World)
    : Prop :=
  forall response listed returned idx native calendar,
    service (network w) (calendarsListing (this w)) = Ok response ->
    listedIn response = Some listed ->
    fst (calendars service w) = Ok returned ->
    listed !! idx = Some native ->
    returned !! idx = Some calendar ->
    color calendar = nativeColorOr (assignColor idx) native.

(** What is returned comes from the mappers, applied to the given account:
    a calendar possibly recolored, an event as it is. *)
Definition from_account `{Imports} (account : string) (returned : Returned)
    : Prop :=
  (forall calendar,
     calendar ∈ returnedCalendars returned ->
     exists native,
       calendar =
         withColor (color calendar) (parseMicrosoftCalendar native account))
  /\ (forall event,
        event ∈ returnedEvents returned ->
        exists native calendar,
          event = parseMicrosoftEvent native account calendar).

(** ** A test double

    An instance of the imports and a scripted service, to run the adapter
    on concrete inputs. *)
Module Sample.

(** Modelled from the spec: [assignColor] of [./colors], a pure function
    of a zero-based index into a fixed cyclic palette.  The colors of the
    palette are not given; these five stand for them. *)
Definition palette : list string :=
  ["#3B82F6"; "#10B981"; "#F59E0B"; "#EF4444"; "#8B5CF6"].

Definition assignColor (index : nat) : string :=
  default EmptyString (palette !! (index mod length palette)%nat).

Definition stringMember (key : string) (v : Value) : string :=
  match v with
  | VObject members =>
      match member key members with
      | Some (VString s) => s
      | _ => EmptyString
      end
  | _ => EmptyString
  end.

Definition boolMember (key : string) (v : Value) : bool :=
  match v with
  | VObject members =>
      match member key members with
      | Some (VBool b) => b
      | _ => false
      end
  | _ => false
  end.

Definition anyMember (key : string) (v : Value) : Value :=
  match v with
  | VObject members => default VUndefined (member key members)
  | _ => VUndefined
  end.

(** Modelled from the spec: [parseMicrosoftCalendar] of
    [./microsoft-calendar/utils]: copies id and name, maps
    [isDefaultCalendar] to isDefault, [canEdit] to not isReadOnly,
    [hexColor] to color with a palette color when it is absent or empty,
    and keeps the permissions. *)
Definition parseMicrosoftCalendar (calendar : MicrosoftCalendar)
    (accountId : string) : Calendar :=
  {| calId := stringMember "id" calendar;
     calAccountId := accountId;
     calProviderId := microsoft;
     calName := stringMember "name" calendar;
     color := match hexColor calendar with
              | Some (String a s) => String a s
              | _ => assignColor 0
              end;
     isDefault := boolMember "isDefaultCalendar" calendar;
     isReadOnly := negb (boolMember "canEdit" calendar);
     permissions := anyMember "calendarPermissions" calendar |}.

(** Modelled from the spec: [parseMicrosoftEvent] of
    [./microsoft-calendar/utils], reduced to the identifying fields; the
    native event is kept as the pass-through field. *)
Definition parseMicrosoftEvent (event : MicrosoftEvent) (accountId : string)
    (calendar : Calendar) : CalendarEvent :=
  {| evId := stringMember "id" event;
     evCalendarId := calId calendar;
     evAccountId := accountId;
     evProviderId := microsoft;
     evTitle := stringMember "subject" event;
     evDescription :=
       match anyMember "bodyPreview" event with
       | VString s => Some s
       | _ => None
       end;
     evProviderFields := event |}.

(** Modelled from the spec: [toMicrosoftEvent] of
    [./microsoft-calendar/utils], which maps a canonical input to the
    native shape; here the input fields are sent as they are. *)
Definition toMicrosoftEvent (event : CreateEventInput + UpdateEventInput)
    : MicrosoftEvent :=
  match event with
  | inl e => createFields e
  | inr e => updateFields e
  end.

(** Modelled from the spec: [calendarPath] of
    [./microsoft-calendar/utils], the REST path of a calendar id. *)
Definition calendarPath (calendarId : string) : string :=
  "/me/calendars/" +:+ calendarId.

(** Modelled from the spec: [eventResponseStatusPath] of
    [./microsoft-calendar/utils], the action of Graph for a canonical
    status: [accept], [decline], [tentativelyAccept].  The adapter never
    asks for the action of [unknown]. *)
Definition eventResponseStatusPath (status : ResponseStatus) : string :=
  match status with
  | accepted => "accept"
  | declined => "decline"
  | tentative => "tentativelyAccept"
  | unknown => EmptyString
  end.

(** Modelled from the spec: [CALENDAR_DEFAULTS.MAX_EVENTS_PER_CALENDAR]
    of [../constants/calendar], a fixed cap whose value is not given. *)
Definition MAX_EVENTS_PER_CALENDAR : Z := 250.

(** [Temporal.Instant.prototype.toString()]: the ISO 8601 rendering in
    UTC, with the fraction of the second cut after its last non-zero
    digit. *)
Definition digit (n : Z) : string :=
  String (ascii_of_nat (48 + Z.to_nat (n mod 10))) EmptyString.

Fixpoint padded (width : nat) (n : Z) : string :=
  match width with
  | O => EmptyString
  | S w => padded w (n / 10) +:+ digit n
  end.

Fixpoint fraction (width : nat) (n : Z) : string :=
  match width with
  | O => EmptyString
  | S w => if n mod 10 =? 0 then fraction w (n / 10) else padded width n
  end.

(** Year, month and day of a count of days since 1970-01-01. *)
Definition civilFromDays (days : Z) : Z * Z * Z :=
  let z := days + 719468 in
  let era := z / 146097 in
  let doe := z - era * 146097 in
  let yoe := (doe - doe / 1460 + doe / 36524 - doe / 146096) / 365 in
  let doy := doe - (365 * yoe + yoe / 4 - yoe / 100) in
  let mp := (5 * doy + 2) / 153 in
  let d := doy - (153 * mp + 2) / 5 + 1 in
  let m := if mp <? 10 then mp + 3 else mp - 9 in
  let y := yoe + era * 400 + (if m <=? 2 then 1 else 0) in
  (y, m, d).

Definition isoYear (y : Z) : string :=
  if (0 <=? y) && (y <=? 9999) then padded 4 y
  else (if y <? 0 then "-" else "+") +:+ padded 6 (Z.abs y).

Definition instantToString (i : Temporal.Instant) : string :=
  let ns := Temporal.epochNanoseconds i in
  let secs := ns / 1000000000 in
  let sub := ns mod 1000000000 in
  let '(y, m, d) := civilFromDays (secs / 86400) in
  let sod := secs mod 86400 in
  isoYear y +:+ "-" +:+ padded 2 m +:+ "-" +:+ padded 2 d +:+ "T"
    +:+ padded 2 (sod / 3600) +:+ ":" +:+ padded 2 (sod mod 3600 / 60)
    +:+ ":" +:+ padded 2 (sod mod 60)
    +:+ (if sub =? 0 then EmptyString else "." +:+ fraction 9 sub) +:+ "Z".

#[export] Instance imports : Imports :=
  Build_Imports assignColor parseMicrosoftCalendar parseMicrosoftEvent
    toMicrosoftEvent calendarPath eventResponseStatusPath
    MAX_EVENTS_PER_CALENDAR instantToString.

(** A service that answers the n-th call of an exchange with the n-th
    entry of a script, and with an empty success once the script is
    exhausted. *)
Definition scripted (script : list (Result Thrown Value)) : Service :=
  fun history _ =>
    default (Ok VUndefined) (script !! length (Graph.issued history)).

Definition provider : MicrosoftCalendarProvider :=
  new_MicrosoftCalendarProvider
    {| optAccessToken := "token-1"; optAccountId := "account-1" |}.

Definition world : World :=
  {| this := provider; network := []; console := [] |}.

(** A listing of two calendars: one with a native color, one without. *)
Definition workCalendar : MicrosoftCalendar :=
  VObject [("id", VString "cal-work"); ("name", VString "Work");
           ("isDefaultCalendar", VBool true); ("canEdit", VBool true);
           ("hexColor", VString "#0078D4")].

Definition homeCalendar : MicrosoftCalendar :=
  VObject [("id", VString "cal-home"); ("name", VString "Home");
           ("isDefaultCalendar", VBool false); ("canEdit", VBool true)].

Definition listing : Value :=
  VObject [("value", VArray [workCalendar; homeCalendar])].

Definition calendar : Calendar := parseMicrosoftCalendar workCalendar "account-1".

(** The update of the scenario of the specification: accept the
    invitation and tell the organizer. *)
Definition accept : ResponseToEventInput :=
  {| status := accepted; comment := None; sendUpdate := true |}.

Definition acceptInvitation : UpdateEventInput :=
  {| updateFields := VObject [("subject", VString "Review")];
     response := Some accept |}.

Definition noAnswer : ResponseToEventInput :=
  {| status := unknown; comment := None; sendUpdate := false |}.

Definition patchedEvent : MicrosoftEvent :=
  VObject [("id", VString "evt1"); ("subject", VString "Review")].

Definition unavailable : Thrown :=
  GraphError 503 "serviceNotAvailable" "The service is temporarily unavailable.".

(** Scripts: the PATCH and the POST succeed; the PATCH is rejected; the
    PATCH succeeds and the POST is rejected; the POST answers with an
    event of its own. *)
Definition allGood : Service := scripted [Ok patchedEvent; Ok VUndefined].

Definition quiet : Service := scripted [].

Definition down : Service := scripted [Err unavailable].

Definition rsvpDown : Service := scripted [Ok patchedEvent; Err unavailable].

Definition rsvpTalks : Service :=
  scripted [Ok patchedEvent; Ok (VObject [("id", VString "evt2")])].

Definition patchOfSample : Graph.Call :=
  {| Graph.verb := Graph.PATCH;
     Graph.request :=
       Graph.api (graphClient provider) "/me/calendars/cal-work/events/evt1";
     Graph.body := Some (VObject [("subject", VString "Review")]) |}.

Definition acceptOfSample : Graph.Call :=
  {| Graph.verb := Graph.POST;
     Graph.request := Graph.api (graphClient provider) "/me/events/evt1/accept";
     Graph.body :=
       Some (VObject [("comment", VUndefined); ("sendResponse", VBool true)]) |}.

(** A service that gives the same answer to everything; a listing answer
    without [value]; a listing of one event; a world in which things have
    happened already. *)
Definition steady : Service := fun _ _ => Ok patchedEvent.

Definition noValue : Value := VObject [("error", VString "unexpected")].

Definition eventListing : Value := VObject [("value", VArray [patchedEvent])].

Definition busy : World :=
  {| this := provider;
     network := [Graph.Issued patchOfSample;
                 Graph.Settled patchOfSample (Err unavailable)];
     console := [("Failed to updateEvent:", unavailable)] |}.

Definition queryOfSample : Graph.Call :=
  {| Graph.verb := Graph.GET;
     Graph.request :=
       {| Graph.client := graphClient provider;
          Graph.path := "/me/calendars/cal-work/events";
          Graph.headers :=
            [("Prefer",
              "outlook.timezone=" +:+ dquote +:+ "America/New_York"
                +:+ dquote)];
          Graph.filterQuery :=
            Some "start/dateTime ge '2024-01-01T00:00:00Z' and end/dateTime le '2024-01-31T23:59:00Z'";
          Graph.orderbyQuery := ["start/dateTime"];
          Graph.topQuery := Some 250 |};
     Graph.body := None |}.


(** Three operations in a row: a deletion that is rejected, an RSVP and a
    listing that succeed. *)
Definition afternoon : list Operation :=
  [DeleteCalendar "cal-home"; ResponseToEvent "cal-work" "evt1" accept;
   Calendars].

Definition rejectsFirst : Service :=
  scripted [Err unavailable; Ok VUndefined; Ok listing].

(** January 2024, in New York time. *)
Definition january1 : Temporal.ZonedDateTime :=
  {| Temporal.zdtEpochNanoseconds := 1704067200 * 1000000000;
     Temporal.timeZoneId := "America/New_York" |}.

Definition january31 : Temporal.ZonedDateTime :=
  {| Temporal.zdtEpochNanoseconds := 1706745540 * 1000000000;
     Temporal.timeZoneId := "America/New_York" |}.

End Sample.

(** ** Vocabulary of the further statements *)

(** The world once a call has been issued and has settled. *)
Definition settle (w : World) (call : Graph.Call)
    (outcome : Result Thrown Value) : World :=
  {| this := this w;
     network := network w ++ [Graph.Issued call; Graph.Settled call outcome];
     console := console w |}.

(** The way an operation of the given name fails with a thrown value. *)
Definition fails {T} (name : string) (e : Thrown) (w : World)
    : Result ProviderError T * World :=
  (Err {| cause := e; operation := name; context := None |},
   console_error ("Failed to " +:+ name +:+ ":") e w).

(** The calls a run adds to the exchange it starts from. *)
Definition callsOf {E T} (run : M E T) (w : World) : list Graph.Call :=
  Graph.issued (drop (length (network w)) (network (snd (run w)))).

(** An addition to an exchange in which every call settles before the next
    one is issued, with what the service answers at that point. *)
Fixpoint answered (service : Service) (history added : list Graph.Event)
    : Prop :=
  match added with
  | [] => True
  | Graph.Issued call :: Graph.Settled call' outcome :: rest =>
      call' = call /\ outcome = service history call
      /\ answered service
           (history ++ [Graph.Issued call; Graph.Settled call outcome]) rest
  | _ => False
  end.

(** The call every operation starts with, if it makes one, and the call
    that may follow it. *)
Definition firstCall `{Imports} (self : MicrosoftCalendarProvider)
    (op : Operation) : option Graph.Call :=
  match op with
  | Calendars => Some (calendarsListing self)
  | CreateCalendar calendarData =>
      Some {| Graph.verb := Graph.POST;
              Graph.request := Graph.api (graphClient self) "/me/calendars";
              Graph.body := Some calendarData |}
  | UpdateCalendar calendarId calendar =>
      Some {| Graph.verb := Graph.PATCH;
              Graph.request :=
                Graph.api (graphClient self) (calendarPath calendarId);
              Graph.body := Some calendar |}
  | DeleteCalendar calendarId =>
      Some {| Graph.verb := Graph.DELETE;
              Graph.request :=
                Graph.api (graphClient self) (calendarPath calendarId);
              Graph.body := None |}
  | Events calendar timeMin timeMax timeZone =>
      Some (eventsQuery self calendar (Temporal.toInstant timeMin)
              (Temporal.toInstant timeMax) timeZone)
  | CreateEvent calendar event =>
      Some {| Graph.verb := Graph.POST;
              Graph.request :=
                Graph.api (graphClient self)
                  (calendarPath (calId calendar) +:+ "/events");
              Graph.body := Some (toMicrosoftEvent (inl event)) |}
  | UpdateEvent calendar eventId event =>
      Some (updateEventPatch self calendar eventId event)
  | DeleteEvent calendarId eventId =>
      Some {| Graph.verb := Graph.DELETE;
              Graph.request :=
                Graph.api (graphClient self)
                  (calendarPath calendarId +:+ "/events/" +:+ eventId);
              Graph.body := None |}
  | ResponseToEvent _ eventId response =>
      if bool_decide (status response = unknown) then None
      else Some (rsvpPost self eventId response)
  end.

Definition followUpCall `{Imports} (self : MicrosoftCalendarProvider)
    (op : Operation) : option Graph.Call :=
  match op with
  | UpdateEvent _ eventId event =>
      match response event with
      | Some r =>
          if bool_decide (status r = unknown) then None
          else Some (rsvpPost self eventId r)
      | None => None
      end
  | _ => None
  end.

(** The exchange of a first call and of a call that follows when the first
    one succeeds. *)
Definition exchangeOf (service : Service) (history : list Graph.Event)
    (first followUp : option Graph.Call) : list Graph.Event :=
  match first with
  | None => []
  | Some call =>
      let outcome := service history call in
      let settled :=
        history ++ [Graph.Issued call; Graph.Settled call outcome] in
      [Graph.Issued call; Graph.Settled call outcome]
        ++ match outcome, followUp with
           | Ok _, Some next =>
               [Graph.Issued next; Graph.Settled next (service settled next)]
           | _, _ => []
           end
  end.

(** A caller that invokes operations one after the other and keeps every
    result, failures included. *)
Fixpoint session `{Imports} (service : Service) (ops : list Operation)
    (w : World) : list (Result ProviderError Returned) * World :=
  match ops with
  | [] => ([], w)
  | op :: rest =>
      let '(result, w1) := invoke service op w in
      let '(results, w2) := session service rest w1 in
      (result :: results, w2)
  end.

Definition isFailure {E T} (result : Result E T) : bool :=
  match result with
  | Ok _ => false
  | Err _ => true
  end.

(** The console lines of a session: one for every operation that
    failed, in the order of the operations. *)
Definition failureLines
    (runs : list (Operation * Result ProviderError Returned))
    : list (string * Thrown) :=
  omap (fun run =>
          match snd run with
          | Ok _ => None
          | Err error =>
              Some ("Failed to " +:+ operationName (fst run) +:+ ":",
                    cause error)
          end)
       runs.

(** * Properties *)

Section Properties.

Context `{imports : Imports} (service : Service).

(** The adapter's methods, opened up to the monad. *)
Ltac open_adapter :=
  unfold invoke, calendars, createCalendar, updateCalendar, deleteCalendar,
    events, createEvent, updateEvent, deleteEvent, responseToEvent,
    withErrorHandler, graphClientApi, thisAccountId, await, bind, ret, lift,
    getThis, console_error in *;
  simpl in *.

(** C6. [responseToEvent] with status [unknown] returns at once: it
    resolves successfully and leaves the world as it found it, so no
    call reaches the network and nothing is logged. *)
Theorem responseToEvent_unknown_is_noop :
  forall calendarId eventId response w,
    status response = unknown ->
    responseToEvent service calendarId eventId response w = (Ok tt, w).
Proof.
  intros calendarId eventId response w Hstatus.
  open_adapter. rewrite Hstatus. simpl. reflexivity.
Qed.

(** C7. [responseToEvent] with status accepted, declined or tentative
    issues exactly one call: a POST, on the receiver's client, to
    [/me/events/<eventId>/<action>] where the action is
    [eventResponseStatusPath] of the status and of nothing else. *)
Theorem responseToEvent_issues_one_rsvp_call :
  forall calendarId eventId response w,
    status response = accepted \/ status response = declined
      \/ status response = tentative ->
    let call :=
      {| Graph.verb := Graph.POST;
         Graph.request :=
           Graph.api (graphClient (this w))
             ("/me/events/" +:+ eventId +:+ "/"
                +:+ eventResponseStatusPath (status response));
         Graph.body := Some (rsvpBody response) |} in
    let w' := snd (responseToEvent service calendarId eventId response w) in
    network w' =
      network w ++ [Graph.Issued call; Graph.Settled call (service (network w) call)]
    /\ Graph.issued (network w') = Graph.issued (network w) ++ [call].
Proof.
  intros calendarId eventId response w Hstatus call w'.
  assert (Hnet : network w' =
    network w ++ [Graph.Issued call; Graph.Settled call (service (network w) call)]).
  { subst w' call. open_adapter.
    assert (Hknown : bool_decide (status response = unknown) = false).
    { apply bool_decide_eq_false. intros Heq. rewrite Heq in Hstatus.
      destruct Hstatus as [?|[?|?]]; discriminate. }
    rewrite Hknown. unfold rsvpPath, Graph.post. simpl.
    destruct (service (network w) _); reflexivity. }
  split; [exact Hnet|].
  rewrite Hnet. unfold Graph.issued. rewrite omap_app. reflexivity.
Qed.

(** *** The discipline of the method bodies *)

Lemma disciplined_pure {T} (r : Result Thrown T) (fn : M Thrown T) :
  (forall w, fn w = (r, w)) -> disciplined fn.
Proof.
  intros Hfn w. exists []. rewrite Hfn. simpl. rewrite app_nil_r.
  split_and!; auto. intros call e Hin. apply elem_of_nil in Hin. destruct Hin.
Qed.

Lemma disciplined_ret {T} (v : T) : disciplined (ret v).
Proof. now apply (disciplined_pure (Ok v)). Qed.

Lemma disciplined_lift {T} (r : Result Thrown T) : disciplined (lift r).
Proof. now apply (disciplined_pure r). Qed.

Lemma disciplined_await call : disciplined (await service call).
Proof.
  intros w. unfold await. simpl.
  exists [Graph.Issued call; Graph.Settled call (service (network w) call)].
  split_and!; auto.
  intros rejected e Hin.
  apply elem_of_cons in Hin as [Hin|Hin]; [discriminate|].
  apply list_elem_of_singleton in Hin. inversion Hin; subst.
  split; [now exists []|congruence].
Qed.

Lemma disciplined_bind {A B} (m : M Thrown A) (k : A -> M Thrown B) :
  disciplined m -> (forall v, disciplined (k v)) -> disciplined (bind m k).
Proof.
  intros Hm Hk w. unfold bind.
  destruct (Hm w) as (events1 & Hnet1 & Hthis1 & Hcon1 & Hrej1).
  destruct (m w) as [[v|e] w1] eqn:Hrun; simpl in *.
  - destruct (Hk v w1) as (events2 & Hnet2 & Hthis2 & Hcon2 & Hrej2).
    exists (events1 ++ events2).
    rewrite Hnet2, Hnet1, Hthis2, Hthis1, Hcon2, Hcon1, app_assoc.
    split_and!; auto.
    intros call e Hin. apply elem_of_app in Hin as [Hin|Hin].
    + now destruct (Hrej1 _ _ Hin) as [_ ?].
    + destruct (Hrej2 _ _ Hin) as [[before ->] Hres].
      split; [|exact Hres].
      exists (events1 ++ before). now rewrite app_assoc.
  - exists events1. split_and!; auto.
    intros call e' Hin. destruct (Hrej1 _ _ Hin) as [Hlast Heq].
    split; [exact Hlast|congruence].
Qed.

Lemma disciplined_getThis : disciplined getThis.
Proof. intros w. exists []. simpl. rewrite app_nil_r. split_and!; auto.
  intros call e Hin. apply elem_of_nil in Hin. destruct Hin.
Qed.

Create HintDb discipline.

#[local] Hint Resolve disciplined_ret disciplined_lift disciplined_getThis
  disciplined_await : discipline.

Lemma disciplined_graphClientApi path : disciplined (graphClientApi path).
Proof.
  unfold graphClientApi. apply disciplined_bind; auto with discipline.
Qed.

Lemma disciplined_thisAccountId : disciplined thisAccountId.
Proof.
  unfold thisAccountId. apply disciplined_bind; auto with discipline.
Qed.

#[local] Hint Resolve disciplined_graphClientApi disciplined_thisAccountId
  : discipline.

(** Walks through a method body, bind after bind and branch after branch. *)
Ltac discipline :=
  repeat first
    [ solve [auto with discipline]
    | apply disciplined_bind; [|intros ?]
    | match goal with
      | |- disciplined (match ?x with _ => _ end) => destruct x
      | |- disciplined (if ?b then _ else _) => destruct b
      end ].

Lemma withErrorHandler_enveloped {T} name (fn : M Thrown T) :
  disciplined fn -> enveloped name (withErrorHandler name fn None).
Proof.
  intros Hfn w. unfold withErrorHandler.
  destruct (Hfn w) as (events & Hnet & Hthis & Hcon & Hrej).
  exists events. unfold rejections_surface.
  destruct (fn w) as [[v|e] w1]; simpl in *.
  - split_and!; auto.
    intros call e Hin. now destruct (Hrej _ _ Hin).
  - split_and!; auto.
    + intros call e' Hin. destruct (Hrej _ _ Hin) as [Hlast Heq].
      split; [exact Hlast|congruence].
    + now rewrite Hcon.
Qed.

Lemma enveloped_then {A B} name (m : M ProviderError A) (f : A -> B) :
  enveloped name m -> enveloped name (bind m (fun v => ret (f v))).
Proof.
  intros Hm w. unfold bind, ret.
  destruct (Hm w) as (events & Hnet & Hthis & Hrej & Hlog).
  exists events. unfold rejections_surface, failure_logged_once in *.
  destruct (m w) as [[v|e] w1]; simpl in *; split_and!; auto.
  - intros call e Hin. destruct (Hrej _ _ Hin) as [_ Heq]. discriminate Heq.
  - intros call e' Hin. destruct (Hrej _ _ Hin) as [Hlast Heq].
    split; [exact Hlast|congruence].
  - tauto.
  - tauto.
Qed.

Lemma invoke_enveloped op : enveloped (operationName op) (invoke service op).
Proof.
  destruct op; simpl;
    unfold calendars, createCalendar, updateCalendar, deleteCalendar, events,
      createEvent, updateEvent, deleteEvent, responseToEvent;
    repeat apply enveloped_then; apply withErrorHandler_enveloped; discipline.
Qed.

(** C3. The error envelope.  Around any function, [withErrorHandler]
    returns the result and the world of the function unchanged when it
    succeeds; when it throws, the function has run once, one line with the
    operation name and the raw error is on the console, and the caller gets
    one [ProviderError] with the operation name and that very error.  Every
    public operation sits in this envelope under its own name: a call the
    service rejects is the last thing the operation does (no retry), and
    the caller gets exactly that rejection, wrapped (not suppressed, not
    replaced by a value). *)
Theorem failures_surface_as_one_ProviderError :
  (forall T name (fn : M Thrown T) context w,
     match fn w with
     | (Ok v, w1) => withErrorHandler name fn context w = (Ok v, w1)
     | (Err e, w1) =>
         withErrorHandler name fn context w =
           (Err {| cause := e; operation := name; context := context |},
            {| this := this w1; network := network w1;
               console := console w1 ++ [("Failed to " +:+ name +:+ ":", e)] |})
     end)
  /\ (forall op, enveloped (operationName op) (invoke service op)).
Proof.
  split.
  - intros T name fn context w. unfold withErrorHandler, console_error.
    destruct (fn w) as [[v|e] w1]; reflexivity.
  - exact invoke_enveloped.
Qed.

Lemma withErrorHandler_error {T} name (fn : M Thrown T) ctx w error :
  fst (withErrorHandler name fn ctx w) = Err error ->
  operation error = name /\ context error = ctx.
Proof.
  unfold withErrorHandler. destruct (fn w) as [[v|e] w1]; simpl.
  - discriminate.
  - intros [= <-]. auto.
Qed.

Lemma then_error {E A B} (m : M E A) (f : A -> B) w error :
  fst (bind m (fun v => ret (f v)) w) = Err error -> fst (m w) = Err error.
Proof.
  unfold bind, ret. destruct (m w) as [[v|e] w1]; simpl; congruence.
Qed.

(** C10. No call site of the error wrapper passes a context: whatever
    public operation fails, the [ProviderError] it throws has none. *)
Theorem ProviderError_has_no_context :
  forall op w error,
    fst (invoke service op w) = Err error -> context error = None.
Proof.
  intros op w error Hfail.
  destruct op; simpl in Hfail;
    unfold calendars, createCalendar, updateCalendar, deleteCalendar, events,
      createEvent, updateEvent, deleteEvent, responseToEvent in Hfail;
    repeat apply then_error in Hfail;
    now apply withErrorHandler_error in Hfail.
Qed.

(** *** [updateEvent], step by step *)

Lemma updateEvent_patch_rejected calendar eventId event w e :
  let patch := updateEventPatch (this w) calendar eventId event in
  service (network w) patch = Err e ->
  updateEvent service calendar eventId event w =
    (Err {| cause := e; operation := "updateEvent"; context := None |},
     {| this := this w;
        network := network w ++ [Graph.Issued patch; Graph.Settled patch (Err e)];
        console := console w ++ [("Failed to updateEvent:", e)] |}).
Proof.
  intros patch Hpatch. subst patch. unfold updateEventPatch in Hpatch.
  unfold updateEvent, withErrorHandler, graphClientApi, await, bind, ret,
    getThis, Graph.patch, console_error. simpl.
  rewrite Hpatch. reflexivity.
Qed.

Lemma updateEvent_without_rsvp calendar eventId event w updated :
  let patch := updateEventPatch (this w) calendar eventId event in
  service (network w) patch = Ok updated ->
  response event = None
    \/ (exists r, response event = Some r /\ status r = unknown) ->
  updateEvent service calendar eventId event w =
    (Ok (parseMicrosoftEvent updated (accountId (this w)) calendar),
     {| this := this w;
        network := network w
                     ++ [Graph.Issued patch; Graph.Settled patch (Ok updated)];
        console := console w |}).
Proof.
  intros patch Hpatch Hnone. subst patch. unfold updateEventPatch in Hpatch.
  unfold updateEvent, withErrorHandler, graphClientApi, thisAccountId, await,
    bind, ret, getThis, Graph.patch, console_error. simpl.
  rewrite Hpatch.
  destruct Hnone as [->|(r & -> & Hunknown)]; [reflexivity|].
  rewrite Hunknown. reflexivity.
Qed.

Lemma updateEvent_with_rsvp calendar eventId event w updated r :
  let patch := updateEventPatch (this w) calendar eventId event in
  let post := rsvpPost (this w) eventId r in
  let settled :=
    network w ++ [Graph.Issued patch; Graph.Settled patch (Ok updated)] in
  service (network w) patch = Ok updated ->
  response event = Some r ->
  status r <> unknown ->
  updateEvent service calendar eventId event w =
    match service settled post with
    | Ok answer =>
        (Ok (parseMicrosoftEvent updated (accountId (this w)) calendar),
         {| this := this w;
            network := settled
                         ++ [Graph.Issued post; Graph.Settled post (Ok answer)];
            console := console w |})
    | Err e =>
        (Err {| cause := e; operation := "updateEvent"; context := None |},
         {| this := this w;
            network := settled ++ [Graph.Issued post; Graph.Settled post (Err e)];
            console := console w ++ [("Failed to updateEvent:", e)] |})
    end.
Proof.
  intros patch post settled Hpatch Hresponse Hstatus.
  subst patch post settled. unfold updateEventPatch, rsvpPost in *.
  unfold updateEvent, withErrorHandler, graphClientApi, thisAccountId, await,
    bind, ret, getThis, Graph.patch, Graph.post, rsvpPath, console_error.
  simpl. rewrite Hpatch, Hresponse.
  rewrite (bool_decide_eq_true_2 _ Hstatus). simpl.
  destruct (service (network w ++ _) _) as [answer|e]; simpl;
    rewrite <- app_assoc; reflexivity.
Qed.

(** C2. [updateEvent] first issues the PATCH of the event and lets it
    settle.  A further call follows if and only if the PATCH succeeded and
    the input carries a response whose status is not [unknown]; that call
    is the POST to the RSVP action, issued once the PATCH has settled.
    When the PATCH is rejected, or no response is asked for, the PATCH is
    all there is. *)
Theorem updateEvent_rsvp_follows_successful_patch :
  forall calendar eventId event w,
    let patch := updateEventPatch (this w) calendar eventId event in
    let patched := service (network w) patch in
    let settled :=
      network w ++ [Graph.Issued patch; Graph.Settled patch patched] in
    let w' := snd (updateEvent service calendar eventId event w) in
    exists follow_up,
      network w' = settled ++ follow_up
      /\ (forall updated r,
            patched = Ok updated -> response event = Some r ->
            status r <> unknown ->
            let post := rsvpPost (this w) eventId r in
            follow_up =
              [Graph.Issued post; Graph.Settled post (service settled post)])
      /\ ((exists e, patched = Err e) \/ response event = None
            \/ (exists r, response event = Some r /\ status r = unknown) ->
          follow_up = [])
      /\ ((exists call, Graph.Issued call ∈ follow_up) <->
          (exists updated r,
             patched = Ok updated /\ response event = Some r
             /\ status r <> unknown)).
Proof.
  intros calendar eventId event w patch patched settled w'.
  subst w' settled patched.
  destruct (service (network w) patch) as [updated|e] eqn:Hpatched.
  - destruct (response event) as [r|] eqn:Hresponse.
    + destruct (decide (status r = unknown)) as [Hunknown|Hknown].
      * exists [].
        rewrite (updateEvent_without_rsvp _ _ _ _ updated) by eauto.
        simpl. fold patch. rewrite app_nil_r.
        split_and!; auto.
        -- intros ? ? _ [= <-] Hstatus. contradiction.
        -- split.
           ++ intros [call Hin]. apply elem_of_nil in Hin. destruct Hin.
           ++ intros (? & ? & _ & [= <-] & Hstatus). contradiction.
      * set (post := rsvpPost (this w) eventId r).
        set (settled :=
               network w ++ [Graph.Issued patch; Graph.Settled patch (Ok updated)]).
        exists [Graph.Issued post; Graph.Settled post (service settled post)].
        rewrite (updateEvent_with_rsvp _ _ _ _ updated r) by assumption.
        fold patch post settled.
        split_and!.
        -- destruct (service settled post); reflexivity.
        -- intros ? ? _ [= <-] _. reflexivity.
        -- intros [[? [=]]|[[=]|(? & [= <-] & Hstatus)]]. contradiction.
        -- split; [eauto|]. intros _. exists post. apply elem_of_cons. auto.
    + exists [].
      rewrite (updateEvent_without_rsvp _ _ _ _ updated) by eauto.
      simpl. fold patch. rewrite app_nil_r.
      split_and!; auto.
      * intros ? ? _ [=].
      * split.
        -- intros [call Hin]. apply elem_of_nil in Hin. destruct Hin.
        -- intros (? & ? & _ & [=] & _).
  - exists [].
    rewrite (updateEvent_patch_rejected _ _ _ _ e) by assumption.
    simpl. fold patch. rewrite app_nil_r.
    split_and!; auto.
    + intros ? ? [=].
    + split.
      * intros [call Hin]. apply elem_of_nil in Hin. destruct Hin.
      * intros (? & ? & [=] & _).
Qed.

(** C4. When the PATCH of [updateEvent] succeeds and the RSVP POST is
    rejected, the rejected POST is the last call of the operation (nothing
    is sent to undo the PATCH) and the caller gets the rejection of the
    POST as a [ProviderError] of [updateEvent]. *)
Theorem updateEvent_rsvp_failure_is_not_rolled_back :
  forall calendar eventId event w updated r e,
    let patch := updateEventPatch (this w) calendar eventId event in
    let post := rsvpPost (this w) eventId r in
    let settled :=
      network w ++ [Graph.Issued patch; Graph.Settled patch (Ok updated)] in
    service (network w) patch = Ok updated ->
    response event = Some r ->
    status r <> unknown ->
    service settled post = Err e ->
    updateEvent service calendar eventId event w =
      (Err {| cause := e; operation := "updateEvent"; context := None |},
       {| this := this w;
          network := settled ++ [Graph.Issued post; Graph.Settled post (Err e)];
          console := console w ++ [("Failed to updateEvent:", e)] |}).
Proof.
  intros calendar eventId event w updated r e patch post settled
    Hpatch Hresponse Hstatus Hpost.
  rewrite (updateEvent_with_rsvp _ _ _ _ updated r) by assumption.
  fold patch post settled. rewrite Hpost. reflexivity.
Qed.

Lemma updateEvent_returns_parsed_patch calendar eventId event w returned :
  fst (updateEvent service calendar eventId event w) = Ok returned ->
  exists updated,
    service (network w) (updateEventPatch (this w) calendar eventId event)
      = Ok updated
    /\ returned = parseMicrosoftEvent updated (accountId (this w)) calendar.
Proof.
  intros Hreturned.
  destruct (service (network w) (updateEventPatch (this w) calendar eventId event))
    as [updated|e] eqn:Hpatch.
  - exists updated. split; [reflexivity|].
    destruct (response event) as [r|] eqn:Hresponse.
    + destruct (decide (status r = unknown)) as [Hunknown|Hknown].
      * rewrite (updateEvent_without_rsvp _ _ _ _ updated) in Hreturned by eauto.
        simpl in Hreturned. congruence.
      * rewrite (updateEvent_with_rsvp _ _ _ _ updated r) in Hreturned
          by assumption.
        destruct (service _ (rsvpPost _ _ _)); simpl in Hreturned; congruence.
    + rewrite (updateEvent_without_rsvp _ _ _ _ updated) in Hreturned by eauto.
      simpl in Hreturned. congruence.
  - rewrite (updateEvent_patch_rejected _ _ _ _ e) in Hreturned by assumption.
    discriminate Hreturned.
Qed.

End Properties.

(** C8. The event [updateEvent] returns is the response of the PATCH, run
    through [parseMicrosoftEvent] with the receiver's account and the given
    calendar.  What the service answers to the RSVP POST has no part in it:
    two services that answer the PATCH alike yield the same event whenever
    both runs return one. *)
Theorem updateEvent_returns_the_patched_event `{Imports} :
  forall (service service' : Service) calendar eventId event w returned returned',
    let patch := updateEventPatch (this w) calendar eventId event in
    service' (network w) patch = service (network w) patch ->
    fst (updateEvent service calendar eventId event w) = Ok returned ->
    fst (updateEvent service' calendar eventId event w) = Ok returned' ->
    returned' = returned
    /\ exists updated,
         service (network w) patch = Ok updated
         /\ returned = parseMicrosoftEvent updated (accountId (this w)) calendar.
Proof.
  intros service service' calendar eventId event w returned returned' patch
    Hsame Hreturned Hreturned'.
  apply updateEvent_returns_parsed_patch in Hreturned as (updated & Hpatch & ->).
  apply updateEvent_returns_parsed_patch in Hreturned' as (updated' & Hpatch' & ->).
  fold patch in Hpatch, Hpatch'.
  split; [congruence|eauto].
Qed.

Section Listings.

Context `{imports : Imports} (service : Service).

(** *** [calendars] and [events], step by step *)

Lemma calendars_run w :
  let call := calendarsListing (this w) in
  let settled answer :=
    {| this := this w;
       network := network w ++ [Graph.Issued call; Graph.Settled call answer];
       console := console w |} in
  let failed e answer :=
    (Err {| cause := e; operation := "calendars"; context := None |},
     console_error "Failed to calendars:" e (settled answer)) in
  calendars service w =
    match service (network w) call with
    | Err e => failed e (Err e)
    | Ok response =>
        match property "value" response with
        | Err e => failed e (Ok response)
        | Ok (VArray listed) =>
            (Ok (imap (fun idx native =>
                         withColor (assignColor idx)
                           (parseMicrosoftCalendar native (accountId (this w))))
                      listed),
             settled (Ok response))
        | Ok _ => failed TypeError (Ok response)
        end
    end.
Proof.
  unfold calendars, calendarsListing, withErrorHandler, graphClientApi,
    thisAccountId, await, bind, ret, lift, getThis, Graph.get, Graph.api,
    console_error. simpl.
  destruct (service (network w) _) as [response|e]; simpl; [|reflexivity].
  destruct (property "value" response) as [[]|e]; reflexivity.
Qed.

Lemma events_run calendar timeMin timeMax timeZone w :
  let call :=
    eventsQuery (this w) calendar
      {| Temporal.epochNanoseconds := Temporal.zdtEpochNanoseconds timeMin |}
      {| Temporal.epochNanoseconds := Temporal.zdtEpochNanoseconds timeMax |}
      timeZone in
  let settled answer :=
    {| this := this w;
       network := network w ++ [Graph.Issued call; Graph.Settled call answer];
       console := console w |} in
  let failed e answer :=
    (Err {| cause := e; operation := "events"; context := None |},
     console_error "Failed to events:" e (settled answer)) in
  events service calendar timeMin timeMax timeZone w =
    match service (network w) call with
    | Err e => failed e (Err e)
    | Ok response =>
        match property "value" response with
        | Err e => failed e (Ok response)
        | Ok (VArray listed) =>
            (Ok (map (fun native =>
                        parseMicrosoftEvent native (accountId (this w)) calendar)
                     listed),
             settled (Ok response))
        | Ok _ => failed TypeError (Ok response)
        end
    end.
Proof.
  unfold events, eventsQuery, withErrorHandler, graphClientApi, thisAccountId,
    await, bind, ret, lift, getThis, Graph.get, Graph.top, Graph.orderby,
    Graph.filter, Graph.header, Graph.api, Temporal.toInstant,
    Temporal.withTimeZone, console_error. simpl.
  destruct (service (network w) _) as [response|e]; simpl; [|reflexivity].
  destruct (property "value" response) as [[]|e]; reflexivity.
Qed.

(** C5. [events] issues one call: a GET on the events of the calendar,
    with the header that asks for times in [timeZone], the filter
    [start/dateTime ge '<timeMin>' and end/dateTime le '<timeMax>'] where
    both bounds are rendered from the exact time of the argument (its
    instant in UTC, whatever zone the argument is in), the ordering by
    [start/dateTime] and the cap [MAX_EVENTS_PER_CALENDAR]. *)
Theorem events_issues_the_bounded_query :
  forall calendar timeMin timeMax timeZone w,
    let startTime :=
      instantToString
        {| Temporal.epochNanoseconds := Temporal.zdtEpochNanoseconds timeMin |} in
    let endTime :=
      instantToString
        {| Temporal.epochNanoseconds := Temporal.zdtEpochNanoseconds timeMax |} in
    let query :=
      {| Graph.verb := Graph.GET;
         Graph.request :=
           {| Graph.client := graphClient (this w);
              Graph.path := calendarPath (calId calendar) +:+ "/events";
              Graph.headers :=
                [("Prefer",
                  "outlook.timezone=" +:+ dquote +:+ timeZone +:+ dquote)];
              Graph.filterQuery :=
                Some ("start/dateTime ge '" +:+ startTime
                        +:+ "' and end/dateTime le '" +:+ endTime +:+ "'");
              Graph.orderbyQuery := ["start/dateTime"];
              Graph.topQuery := Some MAX_EVENTS_PER_CALENDAR |};
         Graph.body := None |} in
    network (snd (events service calendar timeMin timeMax timeZone w)) =
      network w
        ++ [Graph.Issued query; Graph.Settled query (service (network w) query)].
Proof.
  intros calendar timeMin timeMax timeZone w startTime endTime query.
  rewrite events_run. fold startTime endTime. unfold eventsQuery.
  fold startTime endTime query.
  destruct (service (network w) query) as [response|e]; [|reflexivity].
  destruct (property "value" response) as [[]|e]; reflexivity.
Qed.

(** C1, as the code has it.  Whenever the service answers the listing
    call with [{ value: [...] }], [calendars] returns one calendar per
    listed calendar, in listing order, and the color of the calendar at an
    index is the palette color of that index, whether or not the listed
    calendar has a [hexColor]. *)
Theorem calendars_colors_follow_the_listing_order :
  forall w response listed,
    service (network w) (calendarsListing (this w)) = Ok response ->
    listedIn response = Some listed ->
    exists returned,
      fst (calendars service w) = Ok returned
      /\ length returned = length listed
      /\ forall idx native,
           listed !! idx = Some native ->
           exists calendar,
             returned !! idx = Some calendar
             /\ color calendar = assignColor idx.
Proof.
  intros w response listed Hresponse Hlisted.
  rewrite calendars_run, Hresponse. unfold listedIn in Hlisted.
  destruct (property "value" response) as [[]|e]; try discriminate Hlisted.
  injection Hlisted as ->. simpl. eexists. split; [reflexivity|].
  split; [apply length_imap|].
  intros idx native Hnative. eexists.
  rewrite list_lookup_imap, Hnative. simpl. split; reflexivity.
Qed.

(** *** What the operations return *)

Lemma withColor_color calendar : withColor (color calendar) calendar = calendar.
Proof. now destruct calendar. Qed.

Lemma from_account_calendar account native :
  from_account account (OneCalendar (parseMicrosoftCalendar native account)).
Proof.
  split; simpl; intros item Hin.
  - apply list_elem_of_singleton in Hin as ->.
    exists native. now rewrite withColor_color.
  - apply elem_of_nil in Hin. destruct Hin.
Qed.

Lemma from_account_event account native calendar :
  from_account account (OneEvent (parseMicrosoftEvent native account calendar)).
Proof.
  split; simpl; intros item Hin.
  - apply elem_of_nil in Hin. destruct Hin.
  - apply list_elem_of_singleton in Hin as ->. eauto.
Qed.

Lemma from_account_nothing account : from_account account Nothing.
Proof.
  split; simpl; intros item Hin; apply elem_of_nil in Hin; destruct Hin.
Qed.

(** Case analysis on every [match] of a run that is known to succeed. *)
Ltac succeed_in H :=
  repeat match type of H with
    | context [match ?x with _ => _ end] =>
        lazymatch x with
        | context [match _ with _ => _ end] => fail
        | _ => destruct x eqn:?; simpl in H; try discriminate H
        end
    end.

Lemma invoke_returns op w returned :
  fst (invoke service op w) = Ok returned ->
  from_account (accountId (this w)) returned.
Proof.
  intros Hreturned. destruct op; simpl in Hreturned.
  - unfold bind, ret in Hreturned. rewrite calendars_run in Hreturned.
    succeed_in Hreturned. injection Hreturned as <-.
    split; simpl; intros item Hin.
    + apply elem_of_lookup_imap in Hin as (idx & native & -> & _).
      exists native. reflexivity.
    + apply elem_of_nil in Hin. destruct Hin.
  - unfold createCalendar, withErrorHandler, graphClientApi, thisAccountId,
      await, bind, ret, getThis in Hreturned. simpl in Hreturned.
    succeed_in Hreturned. injection Hreturned as <-.
    apply from_account_calendar.
  - unfold updateCalendar, withErrorHandler, graphClientApi, thisAccountId,
      await, bind, ret, getThis in Hreturned. simpl in Hreturned.
    succeed_in Hreturned. injection Hreturned as <-.
    apply from_account_calendar.
  - unfold bind, ret in Hreturned.
    destruct (deleteCalendar service calendarId w) as [[[]|e] w1];
      simpl in Hreturned; [|discriminate Hreturned].
    injection Hreturned as <-. apply from_account_nothing.
  - unfold bind, ret in Hreturned. rewrite events_run in Hreturned.
    succeed_in Hreturned. injection Hreturned as <-.
    split; simpl; intros item Hin.
    + apply elem_of_nil in Hin. destruct Hin.
    + apply list_elem_of_fmap in Hin as (native & -> & _). eauto.
  - unfold createEvent, withErrorHandler, graphClientApi, thisAccountId,
      await, bind, ret, getThis in Hreturned. simpl in Hreturned.
    succeed_in Hreturned. injection Hreturned as <-.
    apply from_account_event.
  - unfold bind, ret in Hreturned.
    destruct (updateEvent service calendar eventId event w) as [[updated|e] w1]
      eqn:Hrun; simpl in Hreturned; [|discriminate Hreturned].
    injection Hreturned as <-.
    destruct (updateEvent_returns_parsed_patch service calendar eventId event w
                updated) as (native & _ & ->).
    { now rewrite Hrun. }
    apply from_account_event.
  - unfold bind, ret in Hreturned.
    destruct (deleteEvent service calendarId eventId w) as [[[]|e] w1];
      simpl in Hreturned; [|discriminate Hreturned].
    injection Hreturned as <-. apply from_account_nothing.
  - unfold bind, ret in Hreturned.
    destruct (responseToEvent service calendarId eventId response0 w)
      as [[[]|e] w1]; simpl in Hreturned; [|discriminate Hreturned].
    injection Hreturned as <-. apply from_account_nothing.
Qed.

End Listings.

(** C9. No operation changes the receiver, so the account it was
    constructed with stays.  Every calendar and every event an operation
    returns is what the mappers make of a native value and of that account;
    with mappers that copy the account they are given, every returned
    calendar and event carries the account of the adapter. *)
Theorem returned_items_carry_the_account `{imports : Imports} :
  forall (service : Service) options op w,
    this w = new_MicrosoftCalendarProvider options ->
    this (snd (invoke service op w)) = this w
    /\ forall returned,
         fst (invoke service op w) = Ok returned ->
         from_account (optAccountId options) returned
         /\ ((forall native account,
                calAccountId (parseMicrosoftCalendar native account) = account) ->
             forall calendar,
               calendar ∈ returnedCalendars returned ->
               calAccountId calendar = optAccountId options)
         /\ ((forall native account calendar,
                evAccountId (parseMicrosoftEvent native account calendar)
                  = account) ->
             forall event,
               event ∈ returnedEvents returned ->
               evAccountId event = optAccountId options).
Proof.
  intros service options op w Hconstructed. split.
  - destruct (invoke_enveloped service op w) as (events & _ & Hthis & _).
    exact Hthis.
  - intros returned Hreturned.
    apply invoke_returns in Hreturned. rewrite Hconstructed in Hreturned.
    simpl in Hreturned. split; [exact Hreturned|].
    destruct Hreturned as [Hcalendars Hevents]. split.
    + intros Hmapper calendar Hin.
      destruct (Hcalendars calendar Hin) as [native ->].
      simpl. apply Hmapper.
    + intros Hmapper event Hin.
      destruct (Hevents event Hin) as (native & calendar & ->).
      apply Hmapper.
Qed.

(** *** The native color of a listed calendar *)

Lemma String_neq_tail a s : String a s <> s.
Proof.
  revert a. induction s as [|b s IH]; intros a Heq; [discriminate Heq|].
  injection Heq as _ Heq. exact (IH b Heq).
Qed.

(** Whatever the palette and the mappers, there is a listing on which the
    native color is not the one returned. *)
Lemma native_color_is_overridden `{imports : Imports} :
  forall w, exists service, ~ native_color_preferred service w.
Proof.
  intros w.
  set (native := VObject [("hexColor", VString (String "#" (assignColor 0)))]).
  set (response := VObject [("value", VArray [native])]).
  exists (fun _ _ => Ok response). intros Hpreferred.
  specialize (Hpreferred response [native]
                [withColor (assignColor 0)
                   (parseMicrosoftCalendar native (accountId (this w)))]
                0%nat native
                (withColor (assignColor 0)
                   (parseMicrosoftCalendar native (accountId (this w))))
                eq_refl eq_refl).
  rewrite calendars_run in Hpreferred.
  specialize (Hpreferred eq_refl eq_refl eq_refl).
  unfold nativeColorOr in Hpreferred. simpl in Hpreferred.
  symmetry in Hpreferred. exact (String_neq_tail _ _ Hpreferred).
Qed.

(** * Runs on the test double *)

(** Counterexample to C1 as the specification states it: the first
    calendar of the listing of the test double has the native color
    [#0078D4] and comes back with the first color of the palette. *)
Lemma calendars_ignores_the_native_color :
  ~ @native_color_preferred Sample.imports
      (Sample.scripted [Ok Sample.listing]) Sample.world.
Proof.
  intros Hpreferred.
  specialize (Hpreferred Sample.listing
                [Sample.workCalendar; Sample.homeCalendar] _ 0%nat
                Sample.workCalendar _ eq_refl eq_refl eq_refl eq_refl eq_refl).
  discriminate Hpreferred.
Qed.

Example calendars_on_the_listing :
  hexColor Sample.workCalendar = Some "#0078D4"
  /\ hexColor Sample.homeCalendar = None
  /\ fst (@calendars Sample.imports (Sample.scripted [Ok Sample.listing])
            Sample.world)
     = Ok [withColor "#3B82F6"
             (Sample.parseMicrosoftCalendar Sample.workCalendar "account-1");
           withColor "#10B981"
             (Sample.parseMicrosoftCalendar Sample.homeCalendar "account-1")].
Proof. repeat split. Qed.

Lemma calendars_colors_follow_the_listing_order_witness :
  Sample.scripted [Ok Sample.listing] (network Sample.world)
    (calendarsListing (this Sample.world)) = Ok Sample.listing
  /\ listedIn Sample.listing = Some [Sample.workCalendar; Sample.homeCalendar]
  /\ exists returned,
       fst (@calendars Sample.imports (Sample.scripted [Ok Sample.listing])
              Sample.world) = Ok returned
       /\ length returned = 2%nat
       /\ forall idx native,
            [Sample.workCalendar; Sample.homeCalendar] !! idx = Some native ->
            exists calendar,
              returned !! idx = Some calendar
              /\ color calendar = Sample.assignColor idx.
Proof.
  split; [reflexivity|]. split; [reflexivity|].
  apply (@calendars_colors_follow_the_listing_order Sample.imports
           (Sample.scripted [Ok Sample.listing]) Sample.world Sample.listing
           [Sample.workCalendar; Sample.homeCalendar]); reflexivity.
Defined.

Lemma updateEvent_rsvp_follows_successful_patch_witness :
  network (snd (@updateEvent Sample.imports Sample.allGood Sample.calendar
                  "evt1" Sample.acceptInvitation Sample.world))
  = [Graph.Issued Sample.patchOfSample;
     Graph.Settled Sample.patchOfSample (Ok Sample.patchedEvent);
     Graph.Issued Sample.acceptOfSample;
     Graph.Settled Sample.acceptOfSample (Ok VUndefined)]
  /\ network (snd (@updateEvent Sample.imports Sample.down Sample.calendar
                     "evt1" Sample.acceptInvitation Sample.world))
     = [Graph.Issued Sample.patchOfSample;
        Graph.Settled Sample.patchOfSample (Err Sample.unavailable)].
Proof.
  destruct (@updateEvent_rsvp_follows_successful_patch Sample.imports
              Sample.allGood Sample.calendar "evt1" Sample.acceptInvitation
              Sample.world) as (follow_up & Hnet & Hrsvp & _).
  destruct (@updateEvent_rsvp_follows_successful_patch Sample.imports
              Sample.down Sample.calendar "evt1" Sample.acceptInvitation
              Sample.world) as (nothing & Hnet' & _ & Hnone & _).
  split.
  - rewrite Hnet.
    rewrite (Hrsvp Sample.patchedEvent Sample.accept eq_refl eq_refl);
      [reflexivity|discriminate].
  - rewrite Hnet'. rewrite Hnone; [reflexivity|].
    left. exists Sample.unavailable. reflexivity.
Defined.

Lemma failures_surface_as_one_ProviderError_witness :
  fst (@invoke Sample.imports Sample.down Calendars Sample.world)
  = Err {| cause := Sample.unavailable; operation := "calendars";
           context := None |}
  /\ console (snd (@invoke Sample.imports Sample.down Calendars Sample.world))
     = [("Failed to calendars:", Sample.unavailable)].
Proof.
  destruct (@failures_surface_as_one_ProviderError Sample.imports Sample.down)
    as [_ Henvelope].
  destruct (Henvelope Calendars Sample.world)
    as (events & Hnet & Hthis & Hrejected & Hlogged).
  destruct (Hrejected (calendarsListing Sample.provider) Sample.unavailable)
    as [_ Hresult].
  { vm_compute in Hnet. rewrite <- Hnet.
    apply elem_of_cons. right. apply elem_of_cons. left. reflexivity. }
  split; [exact Hresult|].
  unfold failure_logged_once in Hlogged. rewrite Hresult in Hlogged.
  exact (proj2 Hlogged).
Defined.

Lemma updateEvent_rsvp_failure_is_not_rolled_back_witness :
  Sample.rsvpDown [] Sample.patchOfSample = Ok Sample.patchedEvent
  /\ response Sample.acceptInvitation = Some Sample.accept
  /\ status Sample.accept <> unknown
  /\ Sample.rsvpDown
       [Graph.Issued Sample.patchOfSample;
        Graph.Settled Sample.patchOfSample (Ok Sample.patchedEvent)]
       Sample.acceptOfSample = Err Sample.unavailable
  /\ @updateEvent Sample.imports Sample.rsvpDown Sample.calendar "evt1"
       Sample.acceptInvitation Sample.world
     = (Err {| cause := Sample.unavailable; operation := "updateEvent";
               context := None |},
        {| this := Sample.provider;
           network :=
             [Graph.Issued Sample.patchOfSample;
              Graph.Settled Sample.patchOfSample (Ok Sample.patchedEvent);
              Graph.Issued Sample.acceptOfSample;
              Graph.Settled Sample.acceptOfSample (Err Sample.unavailable)];
           console := [("Failed to updateEvent:", Sample.unavailable)] |}).
Proof.
  split; [reflexivity|]. split; [reflexivity|]. split; [discriminate|].
  split; [reflexivity|].
  apply (@updateEvent_rsvp_failure_is_not_rolled_back Sample.imports
           Sample.rsvpDown Sample.calendar "evt1" Sample.acceptInvitation
           Sample.world Sample.patchedEvent Sample.accept Sample.unavailable);
    try reflexivity; discriminate.
Defined.

Lemma events_issues_the_bounded_query_witness :
  Graph.issued
    (network (snd (@events Sample.imports Sample.allGood Sample.calendar
                     Sample.january1 Sample.january31 "America/New_York"
                     Sample.world)))
  = [{| Graph.verb := Graph.GET;
        Graph.request :=
          {| Graph.client := graphClient Sample.provider;
             Graph.path := "/me/calendars/cal-work/events";
             Graph.headers :=
               [("Prefer",
                 "outlook.timezone=" +:+ dquote +:+ "America/New_York"
                   +:+ dquote)];
             Graph.filterQuery :=
               Some "start/dateTime ge '2024-01-01T00:00:00Z' and end/dateTime le '2024-01-31T23:59:00Z'";
             Graph.orderbyQuery := ["start/dateTime"];
             Graph.topQuery := Some 250 |};
        Graph.body := None |}].
Proof.
  rewrite (@events_issues_the_bounded_query Sample.imports Sample.allGood
             Sample.calendar Sample.january1 Sample.january31
             "America/New_York" Sample.world).
  reflexivity.
Defined.

Lemma responseToEvent_unknown_is_noop_witness :
  status Sample.noAnswer = unknown
  /\ @responseToEvent Sample.imports Sample.quiet "cal-work" "evt1"
       Sample.noAnswer Sample.world
     = (Ok tt, Sample.world).
Proof.
  split; [reflexivity|].
  apply (@responseToEvent_unknown_is_noop Sample.imports Sample.quiet
           "cal-work" "evt1" Sample.noAnswer Sample.world).
  reflexivity.
Defined.

Lemma responseToEvent_issues_one_rsvp_call_witness :
  (status Sample.accept = accepted \/ status Sample.accept = declined
     \/ status Sample.accept = tentative)
  /\ network (snd (@responseToEvent Sample.imports Sample.quiet "cal-work"
                     "evt1" Sample.accept Sample.world))
     = [Graph.Issued Sample.acceptOfSample;
        Graph.Settled Sample.acceptOfSample (Ok VUndefined)]
  /\ Graph.issued
       (network (snd (@responseToEvent Sample.imports Sample.quiet "cal-work"
                        "evt1" Sample.accept Sample.world)))
     = [Sample.acceptOfSample].
Proof.
  split; [left; reflexivity|].
  apply (@responseToEvent_issues_one_rsvp_call Sample.imports Sample.quiet
           "cal-work" "evt1" Sample.accept Sample.world).
  left. reflexivity.
Defined.

Lemma updateEvent_returns_the_patched_event_witness :
  Sample.rsvpTalks [] Sample.patchOfSample = Sample.allGood [] Sample.patchOfSample
  /\ fst (@updateEvent Sample.imports Sample.allGood Sample.calendar "evt1"
            Sample.acceptInvitation Sample.world)
     = Ok (Sample.parseMicrosoftEvent Sample.patchedEvent "account-1"
             Sample.calendar)
  /\ fst (@updateEvent Sample.imports Sample.rsvpTalks Sample.calendar "evt1"
            Sample.acceptInvitation Sample.world)
     = Ok (Sample.parseMicrosoftEvent Sample.patchedEvent "account-1"
             Sample.calendar)
  /\ (Sample.parseMicrosoftEvent Sample.patchedEvent "account-1" Sample.calendar
      = Sample.parseMicrosoftEvent Sample.patchedEvent "account-1"
          Sample.calendar
      /\ exists updated,
           Sample.allGood [] Sample.patchOfSample = Ok updated
           /\ Sample.parseMicrosoftEvent Sample.patchedEvent "account-1"
                Sample.calendar
              = Sample.parseMicrosoftEvent updated "account-1" Sample.calendar).
Proof.
  split; [reflexivity|]. split; [reflexivity|]. split; [reflexivity|].
  apply (@updateEvent_returns_the_patched_event Sample.imports Sample.allGood
           Sample.rsvpTalks Sample.calendar "evt1" Sample.acceptInvitation
           Sample.world _ _ eq_refl eq_refl eq_refl).
Defined.

Lemma returned_items_carry_the_account_witness :
  this Sample.world
  = new_MicrosoftCalendarProvider
      {| optAccessToken := "token-1"; optAccountId := "account-1" |}
  /\ (forall native account,
        calAccountId (Sample.parseMicrosoftCalendar native account) = account)
  /\ forall calendar,
       calendar
         ∈ [withColor "#3B82F6"
              (Sample.parseMicrosoftCalendar Sample.workCalendar "account-1");
            withColor "#10B981"
              (Sample.parseMicrosoftCalendar Sample.homeCalendar "account-1")] ->
       calAccountId calendar = "account-1".
Proof.
  split; [reflexivity|]. split; [reflexivity|].
  destruct (@returned_items_carry_the_account Sample.imports
              (Sample.scripted [Ok Sample.listing])
              {| optAccessToken := "token-1"; optAccountId := "account-1" |}
              Calendars Sample.world eq_refl) as [_ Hreturned].
  destruct (Hreturned _ eq_refl) as (_ & Hcalendars & _).
  apply Hcalendars. reflexivity.
Defined.

Lemma ProviderError_has_no_context_witness :
  fst (@invoke Sample.imports Sample.down (DeleteEvent "cal-work" "evt1")
         Sample.world)
  = Err {| cause := Sample.unavailable; operation := "deleteEvent";
           context := None |}
  /\ context {| cause := Sample.unavailable; operation := "deleteEvent";
                context := None |} = None.
Proof.
  split; [reflexivity|].
  apply (@ProviderError_has_no_context Sample.imports Sample.down
           (DeleteEvent "cal-work" "evt1") Sample.world).
  reflexivity.
Defined.

(** * Further properties of the adapter *)

Section Coverage.

Context `{imports : Imports} (service : Service).

(** *** The operations with one call, step by step *)

Lemma createCalendar_run calendarData w :
  let call :=
    {| Graph.verb := Graph.POST;
       Graph.request := Graph.api (graphClient (this w)) "/me/calendars";
       Graph.body := Some calendarData |} in
  createCalendar service calendarData w =
    match service (network w) call with
    | Ok created =>
        (Ok (parseMicrosoftCalendar created (accountId (this w))),
         settle w call (Ok created))
    | Err e => fails "createCalendar" e (settle w call (Err e))
    end.
Proof.
  unfold createCalendar, withErrorHandler, graphClientApi, thisAccountId,
    await, bind, ret, getThis, Graph.post, fails, settle, console_error. simpl.
  destruct (service (network w) _); reflexivity.
Qed.

Lemma updateCalendar_run calendarId calendar w :
  let call :=
    {| Graph.verb := Graph.PATCH;
       Graph.request :=
         Graph.api (graphClient (this w)) (calendarPath calendarId);
       Graph.body := Some calendar |} in
  updateCalendar service calendarId calendar w =
    match service (network w) call with
    | Ok updated =>
        (Ok (parseMicrosoftCalendar updated (accountId (this w))),
         settle w call (Ok updated))
    | Err e => fails "updateCalendar" e (settle w call (Err e))
    end.
Proof.
  unfold updateCalendar, withErrorHandler, graphClientApi, thisAccountId,
    await, bind, ret, getThis, Graph.patch, fails, settle, console_error. simpl.
  destruct (service (network w) _); reflexivity.
Qed.

Lemma deleteCalendar_run calendarId w :
  let call :=
    {| Graph.verb := Graph.DELETE;
       Graph.request :=
         Graph.api (graphClient (this w)) (calendarPath calendarId);
       Graph.body := None |} in
  deleteCalendar service calendarId w =
    match service (network w) call with
    | Ok answer => (Ok tt, settle w call (Ok answer))
    | Err e => fails "deleteCalendar" e (settle w call (Err e))
    end.
Proof.
  unfold deleteCalendar, withErrorHandler, graphClientApi, await, bind, ret,
    getThis, Graph.delete, fails, settle, console_error. simpl.
  destruct (service (network w) _); reflexivity.
Qed.

Lemma createEvent_run calendar event w :
  let call :=
    {| Graph.verb := Graph.POST;
       Graph.request :=
         Graph.api (graphClient (this w))
           (calendarPath (calId calendar) +:+ "/events");
       Graph.body := Some (toMicrosoftEvent (inl event)) |} in
  createEvent service calendar event w =
    match service (network w) call with
    | Ok created =>
        (Ok (parseMicrosoftEvent created (accountId (this w)) calendar),
         settle w call (Ok created))
    | Err e => fails "createEvent" e (settle w call (Err e))
    end.
Proof.
  unfold createEvent, withErrorHandler, graphClientApi, thisAccountId,
    await, bind, ret, getThis, Graph.post, fails, settle, console_error. simpl.
  destruct (service (network w) _); reflexivity.
Qed.

Lemma deleteEvent_run calendarId eventId w :
  let call :=
    {| Graph.verb := Graph.DELETE;
       Graph.request :=
         Graph.api (graphClient (this w))
           (calendarPath calendarId +:+ "/events/" +:+ eventId);
       Graph.body := None |} in
  deleteEvent service calendarId eventId w =
    match service (network w) call with
    | Ok answer => (Ok tt, settle w call (Ok answer))
    | Err e => fails "deleteEvent" e (settle w call (Err e))
    end.
Proof.
  unfold deleteEvent, withErrorHandler, graphClientApi, await, bind, ret,
    getThis, Graph.delete, fails, settle, console_error. simpl.
  destruct (service (network w) _); reflexivity.
Qed.

Lemma responseToEvent_run calendarId eventId response w :
  let call := rsvpPost (this w) eventId response in
  responseToEvent service calendarId eventId response w =
    if bool_decide (status response = unknown) then (Ok tt, w)
    else
      match service (network w) call with
      | Ok answer => (Ok tt, settle w call (Ok answer))
      | Err e => fails "responseToEvent" e (settle w call (Err e))
      end.
Proof.
  unfold responseToEvent, withErrorHandler, graphClientApi, await, bind, ret,
    getThis, Graph.post, rsvpPost, rsvpPath, fails, settle, console_error.
  simpl. destruct (bool_decide (status response = unknown)); simpl;
    [reflexivity|].
  destruct (service (network w) _); reflexivity.
Qed.

(** *** The exchange of every operation *)

Lemma then_world {E A B} (m : M E A) (f : A -> B) w :
  snd (bind m (fun v => ret (f v)) w) = snd (m w).
Proof. unfold bind, ret. destruct (m w) as [[v|e] w1]; reflexivity. Qed.

Lemma then_result {E A B} (m : M E A) (f : A -> B) w :
  fst (bind m (fun v => ret (f v)) w)
  = match fst (m w) with
    | Ok v => Ok (f v)
    | Err e => Err e
    end.
Proof. unfold bind, ret. destruct (m w) as [[v|e] w1]; reflexivity. Qed.

Lemma updateEvent_exchange calendar eventId event w :
  network (snd (updateEvent service calendar eventId event w))
  = network w
      ++ exchangeOf service (network w)
           (Some (updateEventPatch (this w) calendar eventId event))
           (followUpCall (this w) (UpdateEvent calendar eventId event)).
Proof.
  unfold exchangeOf, followUpCall.
  set (patch := updateEventPatch (this w) calendar eventId event).
  destruct (service (network w) patch) as [updated|e] eqn:Hpatch.
  - destruct (response event) as [r|] eqn:Hresponse.
    + destruct (decide (status r = unknown)) as [Hunknown|Hknown].
      * rewrite (updateEvent_without_rsvp service _ _ _ _ updated) by eauto.
        rewrite (bool_decide_eq_true_2 _ Hunknown). reflexivity.
      * rewrite (updateEvent_with_rsvp service _ _ _ _ updated r) by assumption.
        rewrite (bool_decide_eq_false_2 _ Hknown). fold patch.
        destruct (service _ (rsvpPost (this w) eventId r));
          simpl; rewrite <- app_assoc; reflexivity.
    + rewrite (updateEvent_without_rsvp service _ _ _ _ updated) by eauto.
      reflexivity.
  - rewrite (updateEvent_patch_rejected service _ _ _ _ e) by assumption.
    reflexivity.
Qed.

Lemma invoke_exchange op w :
  network (snd (invoke service op w))
  = network w
      ++ exchangeOf service (network w) (firstCall (this w) op)
           (followUpCall (this w) op).
Proof.
  destruct op; simpl invoke; rewrite then_world.
  - rewrite calendars_run. unfold exchangeOf, firstCall, followUpCall.
    destruct (service (network w) _) as [answer|e]; [|reflexivity].
    destruct (property "value" answer) as [[]|e]; reflexivity.
  - rewrite createCalendar_run. unfold exchangeOf, firstCall, followUpCall.
    destruct (service (network w) _); reflexivity.
  - rewrite updateCalendar_run. unfold exchangeOf, firstCall, followUpCall.
    destruct (service (network w) _); reflexivity.
  - rewrite deleteCalendar_run. unfold exchangeOf, firstCall, followUpCall.
    destruct (service (network w) _); reflexivity.
  - rewrite events_run. unfold exchangeOf, firstCall, followUpCall.
    unfold Temporal.toInstant.
    destruct (service (network w) _) as [answer|e]; [|reflexivity].
    destruct (property "value" answer) as [[]|e]; reflexivity.
  - rewrite createEvent_run. unfold exchangeOf, firstCall, followUpCall.
    destruct (service (network w) _); reflexivity.
  - apply updateEvent_exchange.
  - rewrite deleteEvent_run. unfold exchangeOf, firstCall, followUpCall.
    destruct (service (network w) _); reflexivity.
  - rewrite responseToEvent_run. unfold exchangeOf, firstCall, followUpCall.
    destruct (bool_decide (status response0 = unknown)); simpl;
      [now rewrite app_nil_r|].
    destruct (service (network w) _); reflexivity.
Qed.

Lemma callsOf_exchange {E T} (run : M E T) w added :
  network (snd (run w)) = network w ++ added ->
  callsOf run w = Graph.issued added.
Proof.
  intros Hnet. unfold callsOf. now rewrite Hnet, drop_app_length.
Qed.

Lemma issued_exchangeOf history first followUp :
  Graph.issued (exchangeOf service history first followUp)
  = match first with
    | None => []
    | Some call =>
        call :: match service history call, followUp with
                | Ok _, Some next => [next]
                | _, _ => []
                end
    end.
Proof.
  unfold exchangeOf. destruct first as [call|]; [|reflexivity].
  destruct (service history call), followUp; reflexivity.
Qed.

Lemma answered_exchangeOf history first followUp :
  answered service history (exchangeOf service history first followUp).
Proof.
  unfold exchangeOf. destruct first as [call|]; [|exact I].
  destruct (service history call) eqn:Hfirst, followUp; simpl;
    rewrite ?Hfirst; auto.
Qed.

Lemma firstCall_client self op call :
  firstCall self op = Some call ->
  Graph.client (Graph.request call) = graphClient self.
Proof.
  destruct op; simpl; try (intros [= <-]; reflexivity).
  destruct (bool_decide _); [discriminate|]. intros [= <-]. reflexivity.
Qed.

Lemma followUpCall_client self op call :
  followUpCall self op = Some call ->
  Graph.client (Graph.request call) = graphClient self.
Proof.
  destruct op; simpl; try discriminate.
  destruct (response event) as [r|]; [|discriminate].
  destruct (bool_decide _); [discriminate|]. intros [= <-]. reflexivity.
Qed.

Lemma issued_of_invoke op w call :
  call ∈ callsOf (invoke service op) w ->
  firstCall (this w) op = Some call
  \/ (followUpCall (this w) op = Some call
      /\ exists first answer,
           firstCall (this w) op = Some first
           /\ service (network w) first = Ok answer).
Proof.
  rewrite (callsOf_exchange _ _ _ (invoke_exchange op w)), issued_exchangeOf.
  destruct (firstCall (this w) op) as [first|]; [|intros Hin; inversion Hin].
  intros Hin. apply elem_of_cons in Hin as [->|Hin]; [now left|].
  destruct (service (network w) first) as [answer|e] eqn:Hfirst;
    [|inversion Hin].
  destruct (followUpCall (this w) op) as [next|]; [|inversion Hin].
  apply list_elem_of_singleton in Hin as ->. right. eauto.
Qed.

(** X1. Every call of every operation goes through the client the adapter
    was constructed with: it presents the access token given to the
    constructor. *)
Theorem every_call_presents_the_token :
  forall options op w call,
    this w = new_MicrosoftCalendarProvider options ->
    call ∈ callsOf (invoke service op) w ->
    Graph.getAccessToken (Graph.client (Graph.request call))
    = optAccessToken options.
Proof.
  intros options op w call Hconstructed Hin.
  apply issued_of_invoke in Hin as [Hfirst|[Hnext _]].
  - apply firstCall_client in Hfirst. now rewrite Hfirst, Hconstructed.
  - apply followUpCall_client in Hnext. now rewrite Hnext, Hconstructed.
Qed.

(** X2. What an operation adds to the exchange is a run of calls that
    settle in turn, each with the answer of the service at that point.
    There are at most two calls; two only for an [updateEvent] whose input
    has a response other than unknown, and none only for a
    [responseToEvent] with status unknown. *)
Theorem calls_settle_in_turn :
  forall op w,
    exists added,
      network (snd (invoke service op w)) = network w ++ added
      /\ answered service (network w) added
      /\ (length (Graph.issued added) <= 2)%nat
      /\ (length (Graph.issued added) = 2%nat ->
          exists calendar eventId event r,
            op = UpdateEvent calendar eventId event
            /\ response event = Some r /\ status r <> unknown)
      /\ (length (Graph.issued added) = 0%nat ->
          exists calendarId eventId response,
            op = ResponseToEvent calendarId eventId response
            /\ status response = unknown).
Proof.
  intros op w. eexists. split; [apply invoke_exchange|].
  split; [apply answered_exchangeOf|].
  rewrite issued_exchangeOf. split_and!.
  - destruct (firstCall (this w) op) as [first|]; simpl; [|lia].
    destruct (service (network w) first), (followUpCall (this w) op);
      simpl; lia.
  - destruct (firstCall (this w) op) as [first|]; simpl; [|discriminate].
    destruct (service (network w) first); [|discriminate].
    destruct op; simpl; try discriminate.
    destruct (response event) as [r|] eqn:Hresponse; [|discriminate].
    destruct (decide (status r = unknown)) as [Hunknown|Hknown].
    + rewrite (bool_decide_eq_true_2 _ Hunknown). discriminate.
    + intros _. eauto 10.
  - destruct op; simpl; try discriminate.
    destruct (decide (status response0 = unknown)) as [Hunknown|Hknown].
    + intros _. eauto.
    + rewrite (bool_decide_eq_false_2 _ Hknown). discriminate.
Qed.

(** X3. What each operation sends.  The two listings only read: their
    calls are GETs without a body.  The deletions send DELETEs without a
    body.  The calendar inputs are sent as they are, the event inputs
    through [toMicrosoftEvent]; an RSVP sends the comment and the
    notification flag of the response and nothing of the event. *)
Theorem what_the_operations_send :
  forall op w call,
    call ∈ callsOf (invoke service op) w ->
    match op with
    | Calendars | Events _ _ _ _ =>
        Graph.verb call = Graph.GET /\ Graph.body call = None
    | DeleteCalendar _ | DeleteEvent _ _ =>
        Graph.verb call = Graph.DELETE /\ Graph.body call = None
    | CreateCalendar calendarData =>
        Graph.verb call = Graph.POST /\ Graph.body call = Some calendarData
    | UpdateCalendar _ calendar =>
        Graph.verb call = Graph.PATCH /\ Graph.body call = Some calendar
    | CreateEvent _ event =>
        Graph.verb call = Graph.POST
        /\ Graph.body call = Some (toMicrosoftEvent (inl event))
    | UpdateEvent _ _ event =>
        (Graph.verb call = Graph.PATCH
         /\ Graph.body call = Some (toMicrosoftEvent (inr event)))
        \/ (Graph.verb call = Graph.POST
            /\ exists r,
                 response event = Some r
                 /\ Graph.body call
                    = Some (VObject
                              [("comment",
                                from_option VString VUndefined (comment r));
                               ("sendResponse", VBool (sendUpdate r))]))
    | ResponseToEvent _ _ response =>
        Graph.verb call = Graph.POST
        /\ Graph.body call
           = Some (VObject
                     [("comment",
                       from_option VString VUndefined (comment response));
                      ("sendResponse", VBool (sendUpdate response))])
    end.
Proof.
  intros op w call Hin.
  apply issued_of_invoke in Hin as [Hfirst|[Hnext _]].
  - destruct op; simpl in Hfirst; try (injection Hfirst as <-; auto).
    destruct (bool_decide _); [discriminate|].
    injection Hfirst as <-. auto.
  - destruct op; simpl in Hnext; try discriminate.
    destruct (response event) as [r|]; [|discriminate].
    destruct (bool_decide _); [discriminate|].
    injection Hnext as <-. right. eauto.
Qed.

Lemma property_throws_TypeError key o e : property key o = Err e -> e = TypeError.
Proof. destruct o; simpl; congruence. Qed.

(** X4. A listing whose answer has no array under [value] (no body, no
    such property, or anything but an array there) is not read as an
    empty listing: [calendars] and [events] fail with a [TypeError] as
    cause, after their one call, and log it. *)
Theorem listing_without_an_array_fails :
  forall calendar timeMin timeMax timeZone w response,
    listedIn response = None ->
    (service (network w) (calendarsListing (this w)) = Ok response ->
     calendars service w
     = fails "calendars" TypeError
         (settle w (calendarsListing (this w)) (Ok response)))
    /\ (let query :=
          eventsQuery (this w) calendar (Temporal.toInstant timeMin)
            (Temporal.toInstant timeMax) timeZone in
        service (network w) query = Ok response ->
        events service calendar timeMin timeMax timeZone w
        = fails "events" TypeError (settle w query (Ok response))).
Proof.
  intros calendar timeMin timeMax timeZone w response Hnone.
  unfold listedIn in Hnone. split.
  - intros Hanswer. rewrite calendars_run, Hanswer.
    destruct (property "value" response) as [[]|e] eqn:Hvalue;
      try discriminate Hnone; try reflexivity.
    now rewrite (property_throws_TypeError _ _ _ Hvalue).
  - intros query Hanswer. subst query.
    unfold Temporal.toInstant in *. rewrite events_run, Hanswer.
    destruct (property "value" response) as [[]|e] eqn:Hvalue;
      try discriminate Hnone; try reflexivity.
    now rewrite (property_throws_TypeError _ _ _ Hvalue).
Qed.

(** X5. When the answer to its query has an array under [value], [events]
    succeeds and returns one event per item, in the order of the array:
    the item run through [parseMicrosoftEvent] with the account of the
    receiver and the calendar it was called with.  An empty array gives an
    empty list. *)
Theorem events_returns_the_listing_in_order :
  forall calendar timeMin timeMax timeZone w response listed,
    service (network w)
      (eventsQuery (this w) calendar (Temporal.toInstant timeMin)
         (Temporal.toInstant timeMax) timeZone) = Ok response ->
    listedIn response = Some listed ->
    exists returned,
      fst (events service calendar timeMin timeMax timeZone w) = Ok returned
      /\ length returned = length listed
      /\ (listed = [] -> returned = [])
      /\ forall idx native,
           listed !! idx = Some native ->
           returned !! idx
           = Some (parseMicrosoftEvent native (accountId (this w)) calendar).
Proof.
  intros calendar timeMin timeMax timeZone w response listed Hanswer Hlisted.
  rewrite events_run. unfold Temporal.toInstant in Hanswer. rewrite Hanswer.
  unfold listedIn in Hlisted.
  destruct (property "value" response) as [[]|e]; try discriminate Hlisted.
  injection Hlisted as ->. eexists. split; [reflexivity|]. split_and!.
  - apply length_map.
  - now intros ->.
  - intros idx native Hnative.
    change (map ?f listed) with (f <$> listed).
    now rewrite list_lookup_fmap, Hnative.
Qed.

(** X6. [events] looks at the bounds only through their exact time: the
    same bounds given in other time zones make the same run. *)
Theorem events_ignores_the_zone_of_the_bounds :
  forall zoneMin zoneMax calendar timeMin timeMax timeZone w,
    events service calendar (Temporal.withTimeZone zoneMin timeMin)
      (Temporal.withTimeZone zoneMax timeMax) timeZone w
    = events service calendar timeMin timeMax timeZone w.
Proof.
  intros zoneMin zoneMax calendar timeMin timeMax timeZone w.
  rewrite !events_run. reflexivity.
Qed.

(** X7. Once its PATCH has succeeded, [updateEvent] with a response goes on
    as [responseToEvent] would from there, for any calendar id: the same
    exchange follows (nothing if the status is unknown).  It returns the
    patched event when [responseToEvent] succeeds, and fails with the same
    cause, under its own name, when [responseToEvent] fails. *)
Theorem updateEvent_goes_on_as_responseToEvent :
  forall calendar eventId event calendarId w updated r,
    let patch := updateEventPatch (this w) calendar eventId event in
    let patched := settle w patch (Ok updated) in
    service (network w) patch = Ok updated ->
    response event = Some r ->
    network (snd (updateEvent service calendar eventId event w))
    = network (snd (responseToEvent service calendarId eventId r patched))
    /\ fst (updateEvent service calendar eventId event w)
       = match fst (responseToEvent service calendarId eventId r patched) with
         | Ok _ =>
             Ok (parseMicrosoftEvent updated (accountId (this w)) calendar)
         | Err error =>
             Err {| cause := cause error; operation := "updateEvent";
                    context := None |}
         end.
Proof.
  intros calendar eventId event calendarId w updated r patch patched
    Hpatch Hresponse.
  rewrite responseToEvent_run.
  destruct (decide (status r = unknown)) as [Hunknown|Hknown].
  - rewrite (bool_decide_eq_true_2 _ Hunknown).
    rewrite (updateEvent_without_rsvp service _ _ _ _ updated) by eauto.
    split; reflexivity.
  - rewrite (bool_decide_eq_false_2 _ Hknown).
    rewrite (updateEvent_with_rsvp service _ _ _ _ updated r) by assumption.
    fold patch. subst patched. unfold settle at 1 2. simpl.
    destruct (service _ (rsvpPost (this w) eventId r)); split; reflexivity.
Qed.

(** X8. The operations that return nothing never read the answer: a
    deletion succeeds exactly when its DELETE is not rejected, whatever
    the body of the answer, and [responseToEvent] exactly when the status
    is unknown or its POST is not rejected. *)
Theorem void_operations_succeed_unless_rejected :
  forall calendarId eventId response w,
    (fst (deleteCalendar service calendarId w) = Ok tt <->
     exists answer,
       service (network w)
         {| Graph.verb := Graph.DELETE;
            Graph.request :=
              Graph.api (graphClient (this w)) (calendarPath calendarId);
            Graph.body := None |} = Ok answer)
    /\ (fst (deleteEvent service calendarId eventId w) = Ok tt <->
        exists answer,
          service (network w)
            {| Graph.verb := Graph.DELETE;
               Graph.request :=
                 Graph.api (graphClient (this w))
                   (calendarPath calendarId +:+ "/events/" +:+ eventId);
               Graph.body := None |} = Ok answer)
    /\ (fst (responseToEvent service calendarId eventId response w) = Ok tt <->
        status response = unknown
        \/ exists answer,
             service (network w)
               {| Graph.verb := Graph.POST;
                  Graph.request :=
                    Graph.api (graphClient (this w))
                      ("/me/events/" +:+ eventId +:+ "/"
                         +:+ eventResponseStatusPath (status response));
                  Graph.body := Some (rsvpBody response) |} = Ok answer).
Proof.
  intros calendarId eventId response w. split_and!.
  - rewrite deleteCalendar_run.
    destruct (service (network w) _) as [answer|e]; simpl; split; eauto.
    + discriminate.
    + intros [answer [=]].
  - rewrite deleteEvent_run.
    destruct (service (network w) _) as [answer|e]; simpl; split; eauto.
    + discriminate.
    + intros [answer [=]].
  - rewrite responseToEvent_run. unfold rsvpPost.
    destruct (decide (status response = unknown)) as [Hunknown|Hknown].
    + rewrite (bool_decide_eq_true_2 _ Hunknown). simpl. split; auto.
    + rewrite (bool_decide_eq_false_2 _ Hknown).
      destruct (service (network w) _) as [answer|e]; simpl; split; eauto.
      * discriminate.
      * intros [Hunknown|[answer [=]]]. contradiction.
Qed.

Ltac rejected_last :=
  left; first
    [ eexists [], _; simpl; reflexivity
    | eexists [_; _], _; simpl; rewrite <- ?app_assoc; reflexivity ].

(** X9. An operation does not fail by itself.  When it fails, either the
    last thing in the exchange is a call the service rejected, and the
    cause is that rejection; or the operation is a listing whose one call
    was answered without an array under [value], and the cause is a
    [TypeError]. *)
Theorem failures_have_their_cause_in_the_exchange :
  forall op w error,
    fst (invoke service op w) = Err error ->
    (exists before call,
       network (snd (invoke service op w))
       = network w ++ before
           ++ [Graph.Issued call; Graph.Settled call (Err (cause error))])
    \/ (cause error = TypeError
        /\ (op = Calendars
            \/ exists calendar timeMin timeMax timeZone,
                 op = Events calendar timeMin timeMax timeZone)
        /\ exists call answer,
             network (snd (invoke service op w))
             = network w ++ [Graph.Issued call; Graph.Settled call (Ok answer)]
             /\ listedIn answer = None).
Proof.
  intros op w error Hfails.
  destruct op; simpl in Hfails |- *;
    rewrite then_result in Hfails; rewrite then_world.
  - rewrite calendars_run in Hfails |- *. unfold listedIn.
    destruct (service (network w) _) as [answer|e]; simpl in *.
    + destruct (property "value" answer) as [[]|e] eqn:Hvalue; simpl in *;
        try discriminate Hfails; injection Hfails as <-; right;
        (split; [try reflexivity|split; [now left|]]);
        try (eexists _, _; split; [reflexivity|now rewrite Hvalue]).
      now apply property_throws_TypeError in Hvalue.
    + injection Hfails as <-. rejected_last.
  - rewrite createCalendar_run in Hfails |- *.
    destruct (service (network w) _) as [answer|e]; simpl in *;
      [discriminate Hfails|]. injection Hfails as <-. rejected_last.
  - rewrite updateCalendar_run in Hfails |- *.
    destruct (service (network w) _) as [answer|e]; simpl in *;
      [discriminate Hfails|]. injection Hfails as <-. rejected_last.
  - rewrite deleteCalendar_run in Hfails |- *.
    destruct (service (network w) _) as [answer|e]; simpl in *;
      [discriminate Hfails|]. injection Hfails as <-. rejected_last.
  - rewrite events_run in Hfails |- *. unfold listedIn.
    destruct (service (network w) _) as [answer|e]; simpl in *.
    + destruct (property "value" answer) as [[]|e] eqn:Hvalue; simpl in *;
        try discriminate Hfails; injection Hfails as <-; right;
        (split; [try reflexivity|split; [right; eauto|]]);
        try (eexists _, _; split; [reflexivity|now rewrite Hvalue]).
      now apply property_throws_TypeError in Hvalue.
    + injection Hfails as <-. rejected_last.
  - rewrite createEvent_run in Hfails |- *.
    destruct (service (network w) _) as [answer|e]; simpl in *;
      [discriminate Hfails|]. injection Hfails as <-. rejected_last.
  - destruct (service (network w)
                (updateEventPatch (this w) calendar eventId event))
      as [updated|e] eqn:Hpatch.
    + destruct (response event) as [r|] eqn:Hresponse.
      * destruct (decide (status r = unknown)) as [Hunknown|Hknown].
        -- rewrite (updateEvent_without_rsvp service _ _ _ _ updated)
             in Hfails by eauto. discriminate Hfails.
        -- rewrite (updateEvent_with_rsvp service _ _ _ _ updated r)
             in Hfails |- * by assumption.
           destruct (service _ (rsvpPost (this w) eventId r)) as [answer|e];
             simpl in *; [discriminate Hfails|].
           injection Hfails as <-. rejected_last.
      * rewrite (updateEvent_without_rsvp service _ _ _ _ updated)
          in Hfails by eauto. discriminate Hfails.
    + rewrite (updateEvent_patch_rejected service _ _ _ _ e)
        in Hfails |- * by assumption.
      simpl in *. injection Hfails as <-. rejected_last.
  - rewrite deleteEvent_run in Hfails |- *.
    destruct (service (network w) _) as [answer|e]; simpl in *;
      [discriminate Hfails|]. injection Hfails as <-. rejected_last.
  - rewrite responseToEvent_run in Hfails |- *.
    destruct (bool_decide (status response0 = unknown)); simpl in *;
      [discriminate Hfails|].
    destruct (service (network w) _) as [answer|e]; simpl in *;
      [discriminate Hfails|]. injection Hfails as <-. rejected_last.
Qed.

Lemma session_cons op ops w :
  session service (op :: ops) w
  = (fst (invoke service op w)
       :: fst (session service ops (snd (invoke service op w))),
     snd (session service ops (snd (invoke service op w)))).
Proof.
  simpl. destruct (invoke service op w) as [result w1]. simpl.
  destruct (session service ops w1) as [results w2]. reflexivity.
Qed.

(** X10. A caller that invokes operations one after the other gets one
    result per operation and finds the receiver as it was; the exchange
    has only grown, and the console has grown by exactly one line for each
    operation that failed, in order, with the name of that operation and
    the cause of its error. *)
Theorem session_logs_each_failure_once :
  forall ops w,
    let results := fst (session service ops w) in
    let w' := snd (session service ops w) in
    this w' = this w
    /\ length results = length ops
    /\ (exists added, network w' = network w ++ added)
    /\ console w' = console w ++ failureLines (zip ops results).
Proof.
  intros ops. induction ops as [|op ops IH]; intros w; cbv zeta.
  - simpl. split_and!; auto.
    + exists []. now rewrite app_nil_r.
    + unfold failureLines. simpl. now rewrite app_nil_r.
  - rewrite session_cons. cbn [fst snd].
    destruct (invoke_enveloped service op w)
      as (added & Hnet & Hthis & _ & Hlogged).
    destruct (IH (snd (invoke service op w)))
      as (IHthis & IHlength & (more & IHnet) & IHconsole).
    split_and!.
    + now rewrite IHthis.
    + simpl. now rewrite IHlength.
    + exists (added ++ more). now rewrite IHnet, Hnet, app_assoc.
    + rewrite IHconsole. unfold failureLines, failure_logged_once in *.
      simpl. destruct (fst (invoke service op w)) as [returned|error].
      * now rewrite Hlogged.
      * destruct Hlogged as [_ ->]. now rewrite <- app_assoc.
Qed.


Lemma append_assoc (a b c : string) : (a +:+ b) +:+ c = a +:+ b +:+ c.
Proof.
  induction a as [|x a IH]; [reflexivity|].
  change (String x ((a +:+ b) +:+ c) = String x (a +:+ b +:+ c)).
  now f_equal.
Qed.

Lemma callsOf_then {E A B} (m : M E A) (f : A -> B) w :
  callsOf (bind m (fun v => ret (f v))) w = callsOf m w.
Proof. unfold callsOf. now rewrite then_world. Qed.

Lemma callsOf_single op w call :
  firstCall (this w) op = Some call ->
  followUpCall (this w) op = None ->
  callsOf (invoke service op) w = [call].
Proof.
  intros Hfirst Hnone.
  rewrite (callsOf_exchange _ _ _ (invoke_exchange op w)), issued_exchangeOf.
  rewrite Hfirst, Hnone. now destruct (service (network w) call).
Qed.

(** Rewrites the calls of an operation that makes one call and no more. *)
Ltac single_call op w :=
  let Hcalls := fresh "Hcalls" in
  pose proof (callsOf_single op w _ eq_refl eq_refl) as Hcalls;
  simpl invoke in Hcalls; rewrite callsOf_then in Hcalls;
  rewrite Hcalls; clear Hcalls.

(** X12. The event operations address one resource: [events] and
    [createEvent] call the events collection of the calendar, and
    [updateEvent] (with its first call) and [deleteEvent] the item
    [<collection>/<eventId>] under it.  Likewise [updateCalendar] and
    [deleteCalendar] call the same path for a calendar id. *)
Theorem operations_address_one_resource :
  forall calendar calendarId calendarInput eventId created event
         timeMin timeMax timeZone w,
    let collection := calendarPath (calId calendar) +:+ "/events" in
    let paths calls := map (fun call => Graph.path (Graph.request call)) calls in
    paths (callsOf (events service calendar timeMin timeMax timeZone) w)
      = [collection]
    /\ paths (callsOf (createEvent service calendar created) w) = [collection]
    /\ head (paths (callsOf (updateEvent service calendar eventId event) w))
       = Some (collection +:+ "/" +:+ eventId)
    /\ paths (callsOf (deleteEvent service (calId calendar) eventId) w)
       = [collection +:+ "/" +:+ eventId]
    /\ paths (callsOf (updateCalendar service calendarId calendarInput) w)
       = [calendarPath calendarId]
    /\ paths (callsOf (deleteCalendar service calendarId) w)
       = [calendarPath calendarId].
Proof.
  intros calendar calendarId calendarInput eventId created event
    timeMin timeMax timeZone w collection paths.
  subst collection paths. rewrite append_assoc. simpl. split_and!.
  - single_call (Events calendar timeMin timeMax timeZone) w. reflexivity.
  - single_call (CreateEvent calendar created) w. reflexivity.
  - rewrite (callsOf_exchange _ _ _ (updateEvent_exchange _ _ _ _)).
    rewrite issued_exchangeOf. reflexivity.
  - single_call (DeleteEvent (calId calendar) eventId) w. reflexivity.
  - single_call (UpdateCalendar calendarId calendarInput) w. reflexivity.
  - single_call (DeleteCalendar calendarId) w. reflexivity.
Qed.

Lemma updateEvent_result_stateless calendar eventId event w1 w2 :
  this w1 = this w2 ->
  (forall history1 history2 call,
     service history1 call = service history2 call) ->
  fst (updateEvent service calendar eventId event w1)
  = fst (updateEvent service calendar eventId event w2).
Proof.
  intros Hthis Hstateless.
  destruct (service (network w2)
              (updateEventPatch (this w2) calendar eventId event))
    as [updated|e] eqn:Hpatch2.
  - assert (Hpatch1 : service (network w1)
                        (updateEventPatch (this w1) calendar eventId event)
                      = Ok updated).
    { now rewrite Hthis, (Hstateless _ (network w2)). }
    destruct (response event) as [r|] eqn:Hresponse.
    + destruct (decide (status r = unknown)) as [Hunknown|Hknown].
      * rewrite !(updateEvent_without_rsvp service _ _ _ _ updated) by eauto.
        simpl. now rewrite Hthis.
      * rewrite !(updateEvent_with_rsvp service _ _ _ _ updated r)
          by assumption.
        rewrite Hthis.
        match goal with
        | |- context [service (network w1 ++ ?added) ?call] =>
            rewrite (Hstateless (network w1 ++ added) (network w2 ++ added))
        end.
        destruct (service _ (rsvpPost (this w2) eventId r)); reflexivity.
    + rewrite !(updateEvent_without_rsvp service _ _ _ _ updated) by eauto.
      simpl. now rewrite Hthis.
  - assert (Hpatch1 : service (network w1)
                        (updateEventPatch (this w1) calendar eventId event)
                      = Err e).
    { now rewrite Hthis, (Hstateless _ (network w2)). }
    now rewrite !(updateEvent_patch_rejected service _ _ _ _ e) by assumption.
Qed.

(** X13. The adapter keeps nothing between operations.  Against a service
    whose answer depends on the call alone, an operation returns the same
    result and makes the same calls whatever came before: the earlier
    exchange and the console make no difference, only the receiver
    does. *)
Theorem operations_keep_no_state :
  forall op w1 w2,
    this w1 = this w2 ->
    (forall history1 history2 call,
       service history1 call = service history2 call) ->
    fst (invoke service op w1) = fst (invoke service op w2)
    /\ callsOf (invoke service op) w1 = callsOf (invoke service op) w2.
Proof.
  intros op w1 w2 Hthis Hstateless. split.
  - destruct op; simpl invoke; rewrite !then_result.
    + rewrite !calendars_run, Hthis, (Hstateless (network w1) (network w2)).
      destruct (service (network w2) _) as [answer|e]; [|reflexivity].
      destruct (property "value" answer) as [[]|e]; reflexivity.
    + rewrite !createCalendar_run, Hthis,
        (Hstateless (network w1) (network w2)).
      destruct (service (network w2) _); reflexivity.
    + rewrite !updateCalendar_run, Hthis,
        (Hstateless (network w1) (network w2)).
      destruct (service (network w2) _); reflexivity.
    + rewrite !deleteCalendar_run, Hthis,
        (Hstateless (network w1) (network w2)).
      destruct (service (network w2) _); reflexivity.
    + rewrite !events_run, Hthis, (Hstateless (network w1) (network w2)).
      destruct (service (network w2) _) as [answer|e]; [|reflexivity].
      destruct (property "value" answer) as [[]|e]; reflexivity.
    + rewrite !createEvent_run, Hthis,
        (Hstateless (network w1) (network w2)).
      destruct (service (network w2) _); reflexivity.
    + now rewrite (updateEvent_result_stateless _ _ _ w1 w2).
    + rewrite !deleteEvent_run, Hthis,
        (Hstateless (network w1) (network w2)).
      destruct (service (network w2) _); reflexivity.
    + rewrite !responseToEvent_run, Hthis,
        (Hstateless (network w1) (network w2)).
      destruct (bool_decide _); [reflexivity|].
      destruct (service (network w2) _); reflexivity.
  - rewrite !(callsOf_exchange _ _ _ (invoke_exchange op _)).
    rewrite !issued_exchangeOf, Hthis.
    destruct (firstCall (this w2) op) as [first|]; [|reflexivity].
    now rewrite (Hstateless (network w1) (network w2)).
Qed.

End Coverage.

(** *** The further properties on the test double *)

Lemma every_call_presents_the_token_witness :
  this Sample.world
  = new_MicrosoftCalendarProvider
      {| optAccessToken := "token-1"; optAccountId := "account-1" |}
  /\ Sample.acceptOfSample
       ∈ callsOf (@invoke Sample.imports Sample.allGood
                    (UpdateEvent Sample.calendar "evt1" Sample.acceptInvitation))
           Sample.world
  /\ Graph.getAccessToken
       (Graph.client (Graph.request Sample.acceptOfSample)) = "token-1".
Proof.
  assert (Hin : Sample.acceptOfSample
                  ∈ callsOf (@invoke Sample.imports Sample.allGood
                               (UpdateEvent Sample.calendar "evt1"
                                  Sample.acceptInvitation))
                      Sample.world).
  { apply list_elem_of_further. apply list_elem_of_here. }
  split; [reflexivity|]. split; [exact Hin|].
  exact (@every_call_presents_the_token Sample.imports Sample.allGood
           {| optAccessToken := "token-1"; optAccountId := "account-1" |}
           _ Sample.world _ eq_refl Hin).
Defined.

Lemma calls_settle_in_turn_witness :
  exists added,
    network (snd (@invoke Sample.imports Sample.allGood
                    (UpdateEvent Sample.calendar "evt1" Sample.acceptInvitation)
                    Sample.world))
    = network Sample.world ++ added
    /\ answered Sample.allGood (network Sample.world) added
    /\ (length (Graph.issued added) <= 2)%nat
    /\ (length (Graph.issued added) = 2%nat ->
        exists calendar eventId event r,
          UpdateEvent Sample.calendar "evt1" Sample.acceptInvitation
          = UpdateEvent calendar eventId event
          /\ response event = Some r /\ status r <> unknown)
    /\ (length (Graph.issued added) = 0%nat ->
        exists calendarId eventId response,
          UpdateEvent Sample.calendar "evt1" Sample.acceptInvitation
          = ResponseToEvent calendarId eventId response
          /\ status response = unknown).
Proof.
  exact (@calls_settle_in_turn Sample.imports Sample.allGood
           (UpdateEvent Sample.calendar "evt1" Sample.acceptInvitation)
           Sample.world).
Defined.

Lemma what_the_operations_send_witness :
  Sample.queryOfSample
    ∈ callsOf (@invoke Sample.imports Sample.allGood
                 (Events Sample.calendar Sample.january1 Sample.january31
                    "America/New_York"))
        Sample.world
  /\ Graph.verb Sample.queryOfSample = Graph.GET
  /\ Graph.body Sample.queryOfSample = None.
Proof.
  assert (Hin : Sample.queryOfSample
                  ∈ callsOf (@invoke Sample.imports Sample.allGood
                               (Events Sample.calendar Sample.january1
                                  Sample.january31 "America/New_York"))
                      Sample.world).
  { apply list_elem_of_here. }
  split; [exact Hin|].
  exact (@what_the_operations_send Sample.imports Sample.allGood _
           Sample.world _ Hin).
Defined.

Lemma listing_without_an_array_fails_witness :
  listedIn Sample.noValue = None
  /\ Sample.scripted [Ok Sample.noValue] (network Sample.world)
       (calendarsListing (this Sample.world)) = Ok Sample.noValue
  /\ @calendars Sample.imports (Sample.scripted [Ok Sample.noValue])
       Sample.world
     = (Err {| cause := TypeError; operation := "calendars"; context := None |},
        {| this := Sample.provider;
           network :=
             [Graph.Issued (calendarsListing Sample.provider);
              Graph.Settled (calendarsListing Sample.provider)
                (Ok Sample.noValue)];
           console := [("Failed to calendars:", TypeError)] |}).
Proof.
  split; [reflexivity|]. split; [reflexivity|].
  exact (proj1 (@listing_without_an_array_fails Sample.imports
                  (Sample.scripted [Ok Sample.noValue]) Sample.calendar
                  Sample.january1 Sample.january31 "America/New_York"
                  Sample.world Sample.noValue eq_refl) eq_refl).
Defined.

Lemma events_returns_the_listing_in_order_witness :
  Sample.scripted [Ok Sample.eventListing] (network Sample.world)
    Sample.queryOfSample = Ok Sample.eventListing
  /\ listedIn Sample.eventListing = Some [Sample.patchedEvent]
  /\ exists returned,
       fst (@events Sample.imports (Sample.scripted [Ok Sample.eventListing])
              Sample.calendar Sample.january1 Sample.january31
              "America/New_York" Sample.world) = Ok returned
       /\ length returned = 1%nat
       /\ ([Sample.patchedEvent] = [] -> returned = [])
       /\ forall idx native,
            [Sample.patchedEvent] !! idx = Some native ->
            returned !! idx
            = Some (Sample.parseMicrosoftEvent native "account-1"
                      Sample.calendar).
Proof.
  split; [reflexivity|]. split; [reflexivity|].
  exact (@events_returns_the_listing_in_order Sample.imports
           (Sample.scripted [Ok Sample.eventListing]) Sample.calendar
           Sample.january1 Sample.january31 "America/New_York" Sample.world
           Sample.eventListing [Sample.patchedEvent] eq_refl eq_refl).
Defined.

Lemma events_ignores_the_zone_of_the_bounds_witness :
  @events Sample.imports Sample.allGood Sample.calendar
    (Temporal.withTimeZone "Europe/Berlin" Sample.january1)
    (Temporal.withTimeZone "Asia/Tokyo" Sample.january31)
    "America/New_York" Sample.world
  = @events Sample.imports Sample.allGood Sample.calendar Sample.january1
      Sample.january31 "America/New_York" Sample.world.
Proof.
  exact (@events_ignores_the_zone_of_the_bounds Sample.imports Sample.allGood
           "Europe/Berlin" "Asia/Tokyo" Sample.calendar Sample.january1
           Sample.january31 "America/New_York" Sample.world).
Defined.

Lemma updateEvent_goes_on_as_responseToEvent_witness :
  Sample.rsvpDown (network Sample.world) Sample.patchOfSample
  = Ok Sample.patchedEvent
  /\ response Sample.acceptInvitation = Some Sample.accept
  /\ network (snd (@updateEvent Sample.imports Sample.rsvpDown Sample.calendar
                     "evt1" Sample.acceptInvitation Sample.world))
     = network (snd (@responseToEvent Sample.imports Sample.rsvpDown
                       "cal-home" "evt1" Sample.accept
                       (settle Sample.world Sample.patchOfSample
                          (Ok Sample.patchedEvent))))
  /\ fst (@updateEvent Sample.imports Sample.rsvpDown Sample.calendar "evt1"
            Sample.acceptInvitation Sample.world)
     = Err {| cause := Sample.unavailable; operation := "updateEvent";
              context := None |}.
Proof.
  split; [reflexivity|]. split; [reflexivity|].
  destruct (@updateEvent_goes_on_as_responseToEvent Sample.imports
              Sample.rsvpDown Sample.calendar "evt1" Sample.acceptInvitation
              "cal-home" Sample.world Sample.patchedEvent Sample.accept
              eq_refl eq_refl) as [Hnet Hresult].
  split; [exact Hnet|]. rewrite Hresult. reflexivity.
Defined.

Lemma void_operations_succeed_unless_rejected_witness :
  fst (@deleteEvent Sample.imports Sample.steady "cal-work" "evt1"
         Sample.world) = Ok tt
  /\ fst (@deleteCalendar Sample.imports Sample.down "cal-work" Sample.world)
     <> Ok tt.
Proof.
  destruct (@void_operations_succeed_unless_rejected Sample.imports
              Sample.steady "cal-work" "evt1" Sample.accept Sample.world)
    as (_ & [_ Hdeleted] & _).
  destruct (@void_operations_succeed_unless_rejected Sample.imports
              Sample.down "cal-work" "evt1" Sample.accept Sample.world)
    as ([Hrejected _] & _).
  split.
  - apply Hdeleted. exists Sample.patchedEvent. reflexivity.
  - intros Hok. destruct (Hrejected Hok) as [answer Hanswer].
    discriminate Hanswer.
Defined.

Lemma failures_have_their_cause_in_the_exchange_witness :
  fst (@invoke Sample.imports Sample.rsvpDown
         (UpdateEvent Sample.calendar "evt1" Sample.acceptInvitation)
         Sample.world)
  = Err {| cause := Sample.unavailable; operation := "updateEvent";
           context := None |}
  /\ ((exists before call,
         network (snd (@invoke Sample.imports Sample.rsvpDown
                         (UpdateEvent Sample.calendar "evt1"
                            Sample.acceptInvitation) Sample.world))
         = network Sample.world ++ before
             ++ [Graph.Issued call;
                 Graph.Settled call (Err Sample.unavailable)])
      \/ (Sample.unavailable = TypeError
          /\ (UpdateEvent Sample.calendar "evt1" Sample.acceptInvitation
              = Calendars
              \/ exists calendar timeMin timeMax timeZone,
                   UpdateEvent Sample.calendar "evt1" Sample.acceptInvitation
                   = Events calendar timeMin timeMax timeZone)
          /\ exists call answer,
               network (snd (@invoke Sample.imports Sample.rsvpDown
                               (UpdateEvent Sample.calendar "evt1"
                                  Sample.acceptInvitation) Sample.world))
               = network Sample.world
                   ++ [Graph.Issued call; Graph.Settled call (Ok answer)]
               /\ listedIn answer = None)).
Proof.
  split; [reflexivity|].
  exact (@failures_have_their_cause_in_the_exchange Sample.imports
           Sample.rsvpDown
           (UpdateEvent Sample.calendar "evt1" Sample.acceptInvitation)
           Sample.world _ eq_refl).
Defined.

Lemma session_logs_each_failure_once_witness :
  map isFailure
    (fst (@session Sample.imports Sample.rejectsFirst Sample.afternoon
            Sample.world))
  = [true; false; false]
  /\ console (snd (@session Sample.imports Sample.rejectsFirst
                     Sample.afternoon Sample.world))
     = [("Failed to deleteCalendar:", Sample.unavailable)].
Proof.
  split; [reflexivity|].
  destruct (@session_logs_each_failure_once Sample.imports Sample.rejectsFirst
              Sample.afternoon Sample.world) as (_ & _ & _ & Hconsole).
  rewrite Hconsole. reflexivity.
Defined.


Lemma operations_address_one_resource_witness :
  map (fun call => Graph.path (Graph.request call))
    (callsOf (@createEvent Sample.imports Sample.allGood Sample.calendar
                {| createFields := VObject [("subject", VString "Review")] |})
       Sample.world)
  = ["/me/calendars/cal-work/events"]
  /\ map (fun call => Graph.path (Graph.request call))
       (callsOf (@deleteEvent Sample.imports Sample.allGood "cal-work" "evt1")
          Sample.world)
     = ["/me/calendars/cal-work/events/evt1"].
Proof.
  destruct (@operations_address_one_resource Sample.imports Sample.allGood
              Sample.calendar "cal-work" (VObject [])
              "evt1" {| createFields := VObject [("subject", VString "Review")] |}
              Sample.acceptInvitation Sample.january1 Sample.january31
              "America/New_York" Sample.world)
    as (_ & Hcreate & _ & Hdelete & _).
  split; [exact Hcreate|exact Hdelete].
Defined.

Lemma operations_keep_no_state_witness :
  this Sample.world = this Sample.busy
  /\ (forall history1 history2 call,
        Sample.steady history1 call = Sample.steady history2 call)
  /\ fst (@invoke Sample.imports Sample.steady
            (UpdateEvent Sample.calendar "evt1" Sample.acceptInvitation)
            Sample.world)
     = fst (@invoke Sample.imports Sample.steady
              (UpdateEvent Sample.calendar "evt1" Sample.acceptInvitation)
              Sample.busy)
  /\ callsOf (@invoke Sample.imports Sample.steady
                (UpdateEvent Sample.calendar "evt1" Sample.acceptInvitation))
       Sample.world
     = callsOf (@invoke Sample.imports Sample.steady
                  (UpdateEvent Sample.calendar "evt1" Sample.acceptInvitation))
         Sample.busy.
Proof.
  split; [reflexivity|]. split; [reflexivity|].
  exact (@operations_keep_no_state Sample.imports Sample.steady
           (UpdateEvent Sample.calendar "evt1" Sample.acceptInvitation)
           Sample.world Sample.busy eq_refl (fun _ _ _ => eq_refl)).
Defined.
